(** * meshgraphnets/cloth_model.py: the static DeformingPlate model

    A shallow embedding of [Model] (graph construction, prediction, loss
    and position update) and the properties of it that the design
    document states.

    Conventions of the embedding.

    - A rank-2 tensor of shape [[n, k]] is the list of its [n] rows, each a
      list of [k] entries; a rank-1 tensor is a list.  A tensor without rows
      carries no column count.
    - Floating-point entries range over a type [F] with the operations of
      class [Scalar]; the structural theorems hold for every such
      arithmetic.  The sum of a list of entries is one of these
      operations, [ssum]: the order in which a reduction kernel associates
      its additions is the runtime's, not the program's.  [binary32]
      instantiates the class with IEEE-754 single precision, the dtype
      that [tf.one_hot] produces by default and that [tf.concat] therefore
      forces on [world_pos], and with sequential summation.
    - An operation that the tensor runtime rejects (missing key, wrong
      dtype, incompatible shapes, index out of range) yields [None].
    - The three normalizers are the mutable state of the model; methods
      that call them live in the monad [M], which threads that state and
      propagates failure.  The state also keeps a log of the normalizer
      calls issued, with the arguments as written at the call site. *)

From Stdlib Require Import ZArith List Bool Lia.
From Stdlib Require Import Floats.SpecFloat.
From stdpp Require Import base option list gmap strings.

Local Open Scope string_scope.
Local Open Scope list_scope.

(** ** Scalars *)

Class Scalar (F : Type) := {
  szero : F;
  sone : F;
  sadd : F → F → F;
  ssub : F → F → F;
  smul : F → F → F;
  sdiv : F → F → F;
  ssqrt : F → F;
  (** [x ** 2], which TensorFlow evaluates with its [pow] kernel *)
  spow2 : F → F;
  (** the sum of the entries of a rank-1 tensor, as the reduction kernels
      of [tf.reduce_sum], [tf.reduce_mean] and [tf.norm] compute it *)
  ssum : list F → F;
  (** the cast of an element count, as [tf.reduce_mean] divides by it *)
  sof_nat : nat → F
}.

(** IEEE-754 binary32: 24 bits of precision, exponents below 128.  Sums
    are accumulated from zero, left to right; a kernel that associates a
    long reduction otherwise (by lanes, say) rounds differently, so what
    is proved of this instance concerns sums of no terms or of three
    exactly representable ones. *)
Module binary32.
Definition prec : Z := 24.
Definition emax : Z := 128.
Definition of_Z (z : Z) : spec_float := binary_normalize prec emax z 0 false.

#[export] Instance scalar : Scalar spec_float := {|
  szero := S754_zero false;
  sone := of_Z 1;
  sadd := SFadd prec emax;
  ssub := SFsub prec emax;
  smul := SFmul prec emax;
  sdiv := SFdiv prec emax;
  ssqrt := SFsqrt prec emax;
  spow2 := λ x, SFmul prec emax x x;
  ssum := λ xs, fold_left (SFadd prec emax) xs (S754_zero false);
  sof_nat := λ n, of_Z (Z.of_nat n)
|}.

(** A position vector with integer coordinates. *)
Definition vec3 (x y z : Z) : list spec_float := [of_Z x; of_Z y; of_Z z].
End binary32.

(** ** Tensor operations *)

Section TensorOps.
Context {F : Type} `{!Scalar F}.

(** [tf.zeros_like] *)
Definition zeros_like (t : list (list F)) : list (list F) :=
  map (map (λ _, szero)) t.

(** The one-hot encoding of index [i] over [depth] categories: on-value
    1, off-value 0; an index outside [[0, depth)] gives all zeros. *)
Definition one_hot_row (depth : nat) (i : Z) : list F :=
  map (λ j, if (Z.of_nat j =? i)%Z then sone else szero) (seq 0 depth).

(** [tf.one_hot(indices, depth)] *)
Definition one_hot (indices : list Z) (depth : nat) : list (list F) :=
  map (one_hot_row depth) indices.

(** [t[:, 0]] on a rank-2 integer tensor *)
Definition column0 (t : list (list Z)) : option (list Z) :=
  mapM head t.

(** [tf.equal(t, c)] for a rank-1 integer tensor and a constant *)
Definition equal_const (t : list Z) (c : Z) : list bool :=
  map (λ x, (x =? c)%Z) t.

(** [tf.gather(params, indices)] along axis 0 *)
Definition gather {A} (params : list A) (indices : list Z) : option (list A) :=
  mapM (λ i, if (0 <=? i)%Z then params !! Z.to_nat i else None) indices.

(** One axis of NumPy-style broadcasting: equal extents pair up, an
    extent of 1 is repeated, anything else is rejected. *)
Definition broadcast {A B C} (f : A → B → option C)
    (a : list A) (b : list B) : option (list C) :=
  if decide (length a = length b) then mapM (λ p, f p.1 p.2) (zip a b)
  else match a, b with
       | [x], _ => mapM (f x) b
       | _, [y] => mapM (λ x, f x y) a
       | _, _ => None
       end.

(** Elementwise binary operation on rank-2 tensors. *)
Definition tensor_binop (op : F → F → F)
    (a b : list (list F)) : option (list (list F)) :=
  broadcast (broadcast (λ x y, Some (op x y))) a b.

Definition tensor_add := tensor_binop sadd.
Definition tensor_sub := tensor_binop ssub.

(** [tf.concat([a, b], axis=-1)]: the leading extents must agree. *)
Definition concat2 (a b : list (list F)) : option (list (list F)) :=
  if decide (length a = length b) then Some (zip_with app a b) else None.

Fixpoint concat_from (acc : list (list F)) (ts : list (list (list F)))
    : option (list (list F)) :=
  match ts with
  | [] => Some acc
  | t :: ts' => acc' ← concat2 acc t; concat_from acc' ts'
  end.

(** [tf.concat(ts, axis=-1)] *)
Definition concat_last (ts : list (list (list F))) : option (list (list F)) :=
  match ts with
  | [] => None
  | t :: ts' => concat_from t ts'
  end.

(** [tf.reduce_sum] of a rank-1 tensor *)
Definition reduce_sum (xs : list F) : F := ssum xs.

(** [tf.reduce_sum(t, axis=1)] *)
Definition reduce_sum_axis1 (t : list (list F)) : list F := map reduce_sum t.

(** The Euclidean norm of one row: [sqrt(sum(x * x))]. *)
Definition norm_row (row : list F) : F :=
  ssqrt (reduce_sum (map (λ x, smul x x) row)).

(** [tf.norm(t, axis=-1, keepdims=True)] *)
Definition norm_keepdims (t : list (list F)) : list (list F) :=
  map (λ row, [norm_row row]) t.

(** [t ** 2] *)
Definition tensor_pow2 (t : list (list F)) : list (list F) :=
  map (map spow2) t.

(** [t[mask]] for a rank-1 tensor and a boolean mask of the same extent *)
Definition boolean_mask (t : list F) (mask : list bool) : option (list F) :=
  if decide (length t = length mask)
  then Some (fst <$> filter (λ p, p.2 = true) (zip t mask))
  else None.

(** [tf.reduce_mean] of a rank-1 tensor: the sum over the element count,
    so that the mean of no elements is zero over zero *)
Definition reduce_mean (xs : list F) : F :=
  sdiv (reduce_sum xs) (sof_nat (length xs)).

(** A rank-2 tensor has shape [[n, k]]. *)
Definition has_shape {A} (n k : nat) (t : list (list A)) : Prop :=
  length t = n ∧ Forall (λ row, length row = k) t.
End TensorOps.

(** ** Collaborators

    [common], [core_model] and [normalization] are modules of the
    repository that [cloth_model.py] imports. *)

(** Modelled from the spec: [common.NodeType] (of which the model reads
    the members [NORMAL] and [SIZE], the number of node-type categories)
    and [common.triangles_to_edges], the mesh-to-edge converter, which
    maps the per-cell vertex indices to the sender and receiver index
    arrays. *)
Class Common := {
  NodeType_NORMAL : Z;
  NodeType_SIZE : nat;
  triangles_to_edges : list (list Z) → list Z * list Z
}.

(** Modelled from the spec: [core_model.EdgeSet], a named collection of
    directed sender-to-receiver index pairs with per-edge features. *)
Record EdgeSet (F : Type) := {
  name : string;
  features : list (list F);
  senders : list Z;
  receivers : list Z
}.
Arguments name {F} _.
Arguments features {F} _.
Arguments senders {F} _.
Arguments receivers {F} _.

(** Modelled from the spec: [core_model.MultiGraph], node features and an
    ordered sequence of edge sets. *)
Record MultiGraph (F : Type) := {
  node_features : list (list F);
  edge_sets : list (EdgeSet F)
}.
Arguments node_features {F} _.
Arguments edge_sets {F} _.

(** Modelled from the spec: [normalization.Normalizer], running statistics
    of type [S] over a feature stream.  [nz_new size name] constructs one;
    [nz_forward s x accumulate] is the forward transform (the normalized
    features and the statistics afterwards), which mutates the statistics
    only when [accumulate] is set; [nz_inverse s y] is the inverse
    transform, which only reads them. *)
Class Normalizer (F S : Type) := {
  nz_new : nat → string → S;
  nz_forward : S → list (list F) → bool → list (list F) * S;
  nz_inverse : S → list (list F) → list (list F);
  nz_forward_frozen : ∀ s x, (nz_forward s x false).2 = s
}.

(** Modelled from the spec: the value that [accumulate] takes when a call
    of the forward transform passes no second argument. *)
Definition Normalizer_accumulate_default : bool := true.

(** ** The input record *)

(** An entry of the [inputs] dict: a float tensor or an integer tensor. *)
Inductive Tensor (F : Type) :=
  | FloatTensor (t : list (list F))
  | IntTensor (t : list (list Z)).
Arguments FloatTensor {F} _.
Arguments IntTensor {F} _.

(** [inputs[key]], used where a float tensor is required *)
Definition getitem_float {F} (inputs : gmap string (Tensor F)) (key : string)
    : option (list (list F)) :=
  match inputs !! key with
  | Some (FloatTensor t) => Some t
  | _ => None
  end.

(** [inputs[key]], used where an integer tensor is required *)
Definition getitem_int {F} (inputs : gmap string (Tensor F)) (key : string)
    : option (list (list Z)) :=
  match inputs !! key with
  | Some (IntTensor t) => Some t
  | _ => None
  end.

(** ** Model state and its monad *)

Inductive slot := OutputNormalizer | NodeNormalizer | EdgeNormalizer.

(** A normalizer call as written at the call site: the forward transform
    with the [accumulate] argument passed (if any), or the inverse. *)
Inductive NormalizerCall :=
  | Forward (w : slot) (accumulate : option bool)
  | Inverse (w : slot).

Record ModelState (S : Type) := {
  _output_normalizer : S;
  _node_normalizer : S;
  _edge_normalizer : S;
  calls : list NormalizerCall
}.
Arguments _output_normalizer {S} _.
Arguments _node_normalizer {S} _.
Arguments _edge_normalizer {S} _.
Arguments calls {S} _.

Definition get_slot {S} (w : slot) (st : ModelState S) : S :=
  match w with
  | OutputNormalizer => _output_normalizer st
  | NodeNormalizer => _node_normalizer st
  | EdgeNormalizer => _edge_normalizer st
  end.

Definition set_slot {S} (w : slot) (s : S) (st : ModelState S) : ModelState S :=
  match w with
  | OutputNormalizer =>
      {| _output_normalizer := s; _node_normalizer := _node_normalizer st;
         _edge_normalizer := _edge_normalizer st; calls := calls st |}
  | NodeNormalizer =>
      {| _output_normalizer := _output_normalizer st; _node_normalizer := s;
         _edge_normalizer := _edge_normalizer st; calls := calls st |}
  | EdgeNormalizer =>
      {| _output_normalizer := _output_normalizer st;
         _node_normalizer := _node_normalizer st;
         _edge_normalizer := s; calls := calls st |}
  end.

Definition log_call {S} (c : NormalizerCall) (st : ModelState S) : ModelState S :=
  {| _output_normalizer := _output_normalizer st;
     _node_normalizer := _node_normalizer st;
     _edge_normalizer := _edge_normalizer st;
     calls := calls st ++ [c] |}.

(** The running statistics of the three normalizers. *)
Definition statistics {S} (st : ModelState S) : S * S * S :=
  (_output_normalizer st, _node_normalizer st, _edge_normalizer st).

(** State passing with failure. *)
Definition M (S A : Type) : Type := ModelState S → option (A * ModelState S).

#[global] Instance M_ret {S} : MRet (M S) := λ A a st, Some (a, st).

#[global] Instance M_bind {S} : MBind (M S) := λ A B k m st,
  match m st with
  | Some (a, st') => k a st'
  | None => None
  end.

(** A pure, fallible tensor computation inside [M]. *)
Definition lift {S A} (o : option A) : M S A :=
  λ st, match o with Some a => Some (a, st) | None => None end.

(** ** The model *)

Module Model.
Section Model.
Context {F : Type} `{!Scalar F} {S : Type} `{!Normalizer F S} `{!Common}.
(** [self._learned_model] *)
Variable _learned_model : MultiGraph F → list (list F).

(** [Normalizer.__call__(batched_data, accumulate)], on the normalizer
    held in slot [w] *)
Definition Normalizer_call (w : slot) (batched_data : list (list F))
    (accumulate : option bool) : M S (list (list F)) := λ st,
  let r := nz_forward (get_slot w st) batched_data
             (default Normalizer_accumulate_default accumulate) in
  Some (r.1, set_slot w r.2 (log_call (Forward w accumulate) st)).

(** [Normalizer.inverse(normalized_batch_data)] *)
Definition Normalizer_inverse (w : slot) (normalized : list (list F))
    : M S (list (list F)) := λ st,
  Some (nz_inverse (get_slot w st) normalized, log_call (Inverse w) st).

(** [Model.__init__] *)
Definition __init__ : ModelState S :=
  {| _output_normalizer := nz_new 3 "output_normalizer";
     _node_normalizer := nz_new (3 + NodeType_SIZE) "node_normalizer";
     _edge_normalizer := nz_new 8 "edge_normalizer";
     calls := [] |}.

(** The local [node_features] of [_build_graph] (lines 48-51). *)
Definition build_node_features (inputs : gmap string (Tensor F))
    : option (list (list F)) :=
  world_pos ← getitem_float inputs "world_pos";
  let velocity := zeros_like world_pos in
  node_type_in ← getitem_int inputs "node_type";
  col ← column0 node_type_in;
  let node_type := one_hot col NodeType_SIZE in
  concat_last [velocity; node_type].

(** The locals [senders], [receivers] and [edge_features] of
    [_build_graph] (lines 54-62). *)
Definition build_edge_features (inputs : gmap string (Tensor F))
    : option (list Z * list Z * list (list F)) :=
  cells ← getitem_int inputs "cells";
  let '(senders, receivers) := triangles_to_edges cells in
  wp1 ← getitem_float inputs "world_pos";
  ws ← gather wp1 senders;
  wp2 ← getitem_float inputs "world_pos";
  wr ← gather wp2 receivers;
  relative_world_pos ← tensor_sub ws wr;
  mp1 ← getitem_float inputs "mesh_pos";
  ms ← gather mp1 senders;
  mp2 ← getitem_float inputs "mesh_pos";
  mr ← gather mp2 receivers;
  relative_mesh_pos ← tensor_sub ms mr;
  edge_features ← concat_last [relative_world_pos;
                               norm_keepdims relative_world_pos;
                               relative_mesh_pos;
                               norm_keepdims relative_mesh_pos];
  Some (senders, receivers, edge_features).

Definition _build_graph (inputs : gmap string (Tensor F)) (is_training : bool)
    : M S (MultiGraph F) :=
  node_features ← lift (build_node_features inputs);
  '(senders, receivers, edge_features) ← lift (build_edge_features inputs);
  edge_normalized ← Normalizer_call EdgeNormalizer edge_features (Some is_training);
  let mesh_edges := {| name := "mesh_edges";
                       features := edge_normalized;
                       receivers := receivers;
                       senders := senders |} in
  node_normalized ← Normalizer_call NodeNormalizer node_features (Some is_training);
  mret {| node_features := node_normalized; edge_sets := [mesh_edges] |}.

Definition _update (inputs : gmap string (Tensor F))
    (per_node_network_output : list (list F)) : M S (list (list F)) :=
  displacement ← Normalizer_inverse OutputNormalizer per_node_network_output;
  cur_position ← lift (getitem_float inputs "world_pos");
  new_position ← lift (tensor_add cur_position displacement);
  mret new_position.

Definition _build (inputs : gmap string (Tensor F)) : M S (list (list F)) :=
  graph ← _build_graph inputs false;
  let per_node_network_output := _learned_model graph in
  _update inputs per_node_network_output.

Definition loss (inputs : gmap string (Tensor F)) : M S F :=
  graph ← _build_graph inputs true;
  let network_output := _learned_model graph in
  cur_position ← lift (getitem_float inputs "world_pos");
  target_position ← lift (getitem_float inputs "target|world_pos");
  target_displacement ← lift (tensor_sub target_position cur_position);
  target_normalized ← Normalizer_call OutputNormalizer target_displacement None;
  node_type_in ← lift (getitem_int inputs "node_type");
  col ← lift (column0 node_type_in);
  let loss_mask := equal_const col NodeType_NORMAL in
  diff ← lift (tensor_sub target_normalized network_output);
  let error := reduce_sum_axis1 (tensor_pow2 diff) in
  masked ← lift (boolean_mask error loss_mask);
  mret (reduce_mean masked).
End Model.
End Model.

(** ** The design document's vocabulary *)

Section Spec.
Context {F : Type} `{!Scalar F} `{!Common}.

(** The input record of the design document describes a mesh of [n]
    nodes: [world_pos] and [mesh_pos] are the float tensors [wp] and
    [mp] of shape [[n, 3]], [node_type] is the integer tensor [nt] with
    [n] rows of at least one column, and [cells] is an integer tensor
    from which the converter derives sender and receiver arrays of one
    length that hold valid node indices. *)
Definition mesh_state (n : nat) (inputs : gmap string (Tensor F))
    (wp mp : list (list F)) (nt cells : list (list Z)) : Prop :=
  inputs !! "world_pos" = Some (FloatTensor wp) ∧
  inputs !! "mesh_pos" = Some (FloatTensor mp) ∧
  inputs !! "node_type" = Some (IntTensor nt) ∧
  inputs !! "cells" = Some (IntTensor cells) ∧
  has_shape n 3 wp ∧ has_shape n 3 mp ∧
  length nt = n ∧ Forall (λ row, row ≠ []) nt ∧
  length (triangles_to_edges cells).1 = length (triangles_to_edges cells).2 ∧
  Forall (λ i, 0 ≤ i < Z.of_nat n)%Z (triangles_to_edges cells).1 ∧
  Forall (λ i, 0 ≤ i < Z.of_nat n)%Z (triangles_to_edges cells).2.

(** The graph and the state that a graph build returns for the
    unnormalized node features [nf], the index arrays [snd] and [rcv]
    and the unnormalized edge features [ef]. *)
Definition built_graph {S : Type} `{!Normalizer F S} (st : ModelState S)
    (is_training : bool) (nf : list (list F)) (snd rcv : list Z)
    (ef : list (list F)) : MultiGraph F * ModelState S :=
  let e := nz_forward (_edge_normalizer st) ef is_training in
  let nd := nz_forward (_node_normalizer st) nf is_training in
  ({| node_features := nd.1;
      edge_sets := [{| name := "mesh_edges"; features := e.1;
                       senders := snd; receivers := rcv |}] |},
   {| _output_normalizer := _output_normalizer st;
      _node_normalizer := nd.2;
      _edge_normalizer := e.2;
      calls := calls st ++ [Forward EdgeNormalizer (Some is_training);
                            Forward NodeNormalizer (Some is_training)] |}).

(** Prediction on each record of a sequence in turn, the normalizer
    state of one call being that of the next. *)
Definition predict_all {S : Type} `{!Normalizer F S}
    (learned_model : MultiGraph F → list (list F))
    (records : list (gmap string (Tensor F))) : M S (list (list (list F))) :=
  mapM (Model._build learned_model) records.

(** The normalizer calls of one prediction. *)
Definition predict_calls : list NormalizerCall :=
  [Forward EdgeNormalizer (Some false); Forward NodeNormalizer (Some false);
   Inverse OutputNormalizer].

(** The normalizer calls of one evaluation of the loss. *)
Definition loss_calls : list NormalizerCall :=
  [Forward EdgeNormalizer (Some true); Forward NodeNormalizer (Some true);
   Forward OutputNormalizer None].

(** Componentwise difference and sum of two position vectors. *)
Definition vsub (a b : list F) : list F := zip_with ssub a b.
Definition vadd (a b : list F) : list F := zip_with sadd a b.

(** The squared error of one node, summed over the spatial components:
    for rows [[t1; t2; t3]] and [[o1; o2; o3]] the sum of the three
    squares [(t1 - o1) ** 2], [(t2 - o2) ** 2], [(t3 - o3) ** 2]. *)
Definition node_error (target output : list F) : F :=
  ssum (zip_with (λ t o, spow2 (ssub t o)) target output).

(** The nodes of NORMAL type: the indices of the rows of [node_type]
    whose first entry is [NodeType.NORMAL]. *)
Definition normal_nodes (node_type : list (list Z)) : list nat :=
  filter (λ i, node_type !! i ≫= head = Some NodeType_NORMAL)
         (seq 0 (length node_type)).

(** The loss in the design document's words: the mean, over the nodes
    whose type is NORMAL, of the per-node squared error between the
    normalized target displacement and the raw network output, that is
    the sum of these errors over their number. *)
Definition masked_mean_squared_error (node_type : list (list Z))
    (target_normalized network_output : list (list F)) : F :=
  sdiv (ssum (map (λ i, node_error (default [] (target_normalized !! i))
                                   (default [] (network_output !! i)))
                  (normal_nodes node_type)))
       (sof_nat (length (normal_nodes node_type))).
End Spec.

(** ** A single-triangle mesh with stub collaborators

    Three nodes and one cell; node 1 is not of the NORMAL type.  The
    collaborators are test doubles: a mean-centring normalizer, a converter
    that emits every side of every triangle in both directions, and a
    learned model that reads three node-feature columns. *)
Module Fixture.
Import binary32.

Record stats := { size : nat; acc_count : nat; acc_sum : list spec_float }.

Definition mean (s : stats) : list spec_float :=
  map (λ v, sdiv v (sof_nat (Nat.max (acc_count s) 1))) (acc_sum s).

Definition accumulate (s : stats) (x : list (list spec_float)) : stats :=
  {| size := size s;
     acc_count := acc_count s + length x;
     acc_sum := fold_left (zip_with sadd) x (acc_sum s) |}.

#[export] Instance normalizer : Normalizer spec_float stats := {|
  nz_new := λ n _, {| size := n; acc_count := 0; acc_sum := replicate n szero |};
  nz_forward := λ s x accumulate_flag,
    let s' := if accumulate_flag then accumulate s x else s in
    (map (λ row, zip_with ssub row (mean s')) x, s');
  nz_inverse := λ s y, map (λ row, zip_with sadd row (mean s)) y;
  nz_forward_frozen := λ s x, eq_refl
|}.

Definition sides (cell : list Z) : list (Z * Z) :=
  match cell with
  | [a; b; c] => [(a, b); (b, c); (c, a)]
  | _ => []
  end.

#[export] Instance common : Common := {|
  NodeType_NORMAL := 0;
  NodeType_SIZE := 9;
  triangles_to_edges := λ cells,
    let edges := flat_map sides cells in
    (map fst edges ++ map snd edges, map snd edges ++ map fst edges)
|}.

Definition learned_model (g : MultiGraph spec_float) : list (list spec_float) :=
  map (λ row, take 3 (drop 3 row)) (node_features g).

Definition world_pos : list (list spec_float) :=
  [vec3 0 0 0; vec3 3 4 0; vec3 0 1 0].
Definition mesh_pos : list (list spec_float) :=
  [vec3 0 0 0; vec3 1 0 0; vec3 0 1 0].
Definition node_type : list (list Z) := [[0]; [1]; [0]]%Z.
Definition cells : list (list Z) := [[0; 1; 2]]%Z.
Definition target_world_pos : list (list spec_float) :=
  [vec3 1 0 0; vec3 3 4 0; vec3 0 3 0].

Definition inputs : gmap string (Tensor spec_float) :=
  <["world_pos" := FloatTensor world_pos]>
  (<["mesh_pos" := FloatTensor mesh_pos]>
  (<["node_type" := IntTensor node_type]>
  (<["cells" := IntTensor cells]> ∅))).

Definition training_inputs : gmap string (Tensor spec_float) :=
  <["target|world_pos" := FloatTensor target_world_pos]> inputs.

(** The same mesh with every node marked as an obstacle. *)
Definition obstacle_node_type : list (list Z) := [[1]; [1]; [1]]%Z.
Definition obstacle_inputs : gmap string (Tensor spec_float) :=
  <["node_type" := IntTensor obstacle_node_type]> training_inputs.

Definition state : ModelState stats := Model.__init__.
End Fixture.
(** ** Lemmas on the tensor operations *)

Section TensorLemmas.
Context {F : Type} `{!Scalar F}.

Lemma mapM_lookup {A B} (f : A → option B) (l : list A) (k : list B) e x :
  mapM f l = Some k → l !! e = Some x →
  ∃ y, f x = Some y ∧ k !! e = Some y.
Proof.
  intros Hm%mapM_Some_1 Hl.
  destruct (Forall2_lookup_l _ _ _ _ _ Hm Hl) as (y & Hk & Hf). eauto.
Qed.

Lemma gather_length {A} (params : list A) idx g :
  gather params idx = Some g → length g = length idx.
Proof. intros Hg. symmetry. exact (length_mapM _ _ _ Hg). Qed.

Lemma gather_lookup {A} (params : list A) idx g e i :
  gather params idx = Some g → idx !! e = Some i →
  (0 ≤ i)%Z ∧ ∃ x, params !! Z.to_nat i = Some x ∧ g !! e = Some x.
Proof.
  intros Hg Hi. destruct (mapM_lookup _ _ _ _ _ Hg Hi) as (x & Hx & Hge).
  destruct (0 <=? i)%Z eqn:Hle; [|discriminate].
  apply Z.leb_le in Hle. eauto.
Qed.

Lemma gather_in_range {A} (params : list A) idx :
  Forall (λ i, 0 ≤ i < Z.of_nat (length params))%Z idx →
  ∃ g, gather params idx = Some g.
Proof.
  intros Hr. apply (mapM_is_Some_2 (A:=Z)).
  eapply Forall_impl; [exact Hr|]. intros i [H0 Hn]; simpl.
  destruct (0 <=? i)%Z eqn:Hle; [|apply Z.leb_gt in Hle; lia].
  apply lookup_lt_is_Some. lia.
Qed.

Lemma gather_shape {A} (params : list (list A)) idx g n k :
  has_shape n k params → gather params idx = Some g →
  has_shape (length idx) k g.
Proof.
  intros [_ Hk] Hg. split; [by eapply gather_length|].
  apply Forall_lookup. intros e row He.
  assert (is_Some (idx !! e)) as [i Hi].
  { apply lookup_lt_is_Some. rewrite <- (gather_length _ _ _ Hg).
    by eapply lookup_lt_Some. }
  destruct (gather_lookup _ _ _ _ _ Hg Hi) as (_ & x & Hx & Hgx).
  assert (row = x) as -> by congruence.
  by eapply (Forall_lookup_1 _ _ _ _ Hk).
Qed.

Lemma broadcast_lookup {A B C} (f : A → B → option C) a b c e x y :
  broadcast f a b = Some c → a !! e = Some x → b !! e = Some y →
  ∃ z, f x y = Some z ∧ c !! e = Some z.
Proof.
  unfold broadcast. intros Hb Ha Hy. case_decide as Hlen.
  - assert (zip a b !! e = Some (x, y)) as Hz.
    { rewrite lookup_zip_with, Ha, Hy. done. }
    destruct (mapM_lookup _ _ _ _ _ Hb Hz) as (z & ? & ?). eauto.
  - destruct a as [|x0 [|x1 a]]; [done| |].
    + destruct e; [|done]. simplify_eq/=.
      destruct (mapM_lookup _ _ _ _ _ Hb Hy) as (z & ? & ?). eauto.
    + destruct b as [|y0 [|y1 b]]; [done| |done].
      destruct e; [|done]. injection Hy as ->.
      destruct (mapM_lookup _ _ _ _ _ Hb Ha) as (z & ? & ?). eauto.
Qed.

Lemma broadcast_scalar (op : F → F → F) ra rb :
  length ra = length rb →
  broadcast (λ x y, Some (op x y)) ra rb = Some (zip_with op ra rb).
Proof.
  intros Hlen. unfold broadcast. rewrite decide_True by done.
  clear Hlen. revert rb. induction ra as [|x ra IH]; intros [|y rb]; try done.
  simpl. rewrite IH. done.
Qed.

Lemma tensor_binop_same_shape (op : F → F → F) a b n k :
  has_shape n k a → has_shape n k b →
  tensor_binop op a b = Some (zip_with (zip_with op) a b).
Proof.
  intros [Hna Hka] [Hnb Hkb]. unfold tensor_binop, broadcast at 1.
  rewrite decide_True by congruence. clear Hna Hnb.
  revert b Hkb. induction Hka as [|ra a Hra Hka IH]; intros [|rb b] Hkb; try done.
  apply Forall_cons in Hkb as [Hrb Hkb]. simpl.
  rewrite broadcast_scalar by congruence. simpl.
  specialize (IH b Hkb). simpl in IH. rewrite IH. done.
Qed.

Lemma zip_with_shape {A B C} (f : list A → list B → list C) a b n k1 k2 k' :
  (∀ x y, length x = k1 → length y = k2 → length (f x y) = k') →
  has_shape n k1 a → has_shape n k2 b → has_shape n k' (zip_with f a b).
Proof.
  intros Hf [Hna Hka] [Hnb Hkb]. split.
  - rewrite length_zip_with. lia.
  - apply Forall_lookup. intros e row He.
    apply lookup_zip_with_Some in He as (x & y & -> & Hx & Hy).
    apply Hf.
    + exact (Forall_lookup_1 _ _ _ _ Hka Hx).
    + exact (Forall_lookup_1 _ _ _ _ Hkb Hy).
Qed.

Lemma tensor_binop_shape (op : F → F → F) a b n k :
  has_shape n k a → has_shape n k b →
  has_shape n k (zip_with (zip_with op) a b).
Proof.
  apply zip_with_shape. intros x y Hx Hy. rewrite length_zip_with. lia.
Qed.

Lemma concat_shape (a b : list (list F)) n k1 k2 :
  has_shape n k1 a → has_shape n k2 b →
  has_shape n (k1 + k2) (zip_with app a b).
Proof.
  apply zip_with_shape. intros x y Hx Hy. rewrite length_app. lia.
Qed.

Lemma norm_keepdims_shape (a : list (list F)) :
  has_shape (length a) 1 (norm_keepdims a).
Proof.
  unfold norm_keepdims. split; [by rewrite length_map|].
  apply Forall_map, Forall_true. done.
Qed.

Lemma norm_keepdims_lookup (a : list (list F)) e :
  norm_keepdims a !! e = (λ row, [norm_row row]) <$> a !! e.
Proof. unfold norm_keepdims. apply list_lookup_fmap. Qed.

Lemma tensor_binop_lookup (op : F → F → F) a b c e ra rb :
  tensor_binop op a b = Some c → a !! e = Some ra → b !! e = Some rb →
  ∃ rc, broadcast (λ x y, Some (op x y)) ra rb = Some rc ∧ c !! e = Some rc.
Proof. apply broadcast_lookup. Qed.
End TensorLemmas.

(** ** Lemmas on the model *)

Section ModelLemmas.
Context {F : Type} `{!Scalar F} {S : Type} `{!Normalizer F S} `{!Common}.
Variable learned_model : MultiGraph F → list (list F).

Lemma getitem_float_Some (inputs : gmap string (Tensor F)) key t :
  inputs !! key = Some (FloatTensor t) → getitem_float inputs key = Some t.
Proof. unfold getitem_float. by intros ->. Qed.

Lemma getitem_int_Some (inputs : gmap string (Tensor F)) key t :
  inputs !! key = Some (IntTensor t) → getitem_int inputs key = Some t.
Proof. unfold getitem_int. by intros ->. Qed.

Lemma getitem_float_inv (inputs : gmap string (Tensor F)) key t :
  getitem_float inputs key = Some t → inputs !! key = Some (FloatTensor t).
Proof.
  unfold getitem_float. destruct (inputs !! key) as [[?|?]|]; naive_solver.
Qed.

Lemma getitem_int_inv (inputs : gmap string (Tensor F)) key t :
  getitem_int inputs key = Some t → inputs !! key = Some (IntTensor t).
Proof.
  unfold getitem_int. destruct (inputs !! key) as [[?|?]|]; naive_solver.
Qed.

Lemma column0_nonempty (nt : list (list Z)) :
  Forall (λ row, row ≠ []) nt → ∃ col, column0 nt = Some col.
Proof.
  intros Hne. apply (mapM_is_Some_2 (A:=list Z)).
  eapply Forall_impl; [exact Hne|]. intros [|x row] Hrow; simpl; [done|eauto].
Qed.

Lemma column0_length (nt : list (list Z)) col :
  column0 nt = Some col → length col = length nt.
Proof. intros Hc. symmetry. exact (length_mapM _ _ _ Hc). Qed.

Lemma column0_lookup (nt : list (list Z)) col i :
  column0 nt = Some col → col !! i = nt !! i ≫= head.
Proof.
  intros Hc. destruct (nt !! i) as [row|] eqn:Hrow; simpl.
  - destruct (mapM_lookup _ _ _ _ _ Hc Hrow) as (y & -> & ->). done.
  - apply lookup_ge_None. rewrite (column0_length _ _ Hc).
    by apply lookup_ge_None.
Qed.

Lemma build_graph_unfold inputs is_training st :
  Model._build_graph inputs is_training st =
    nf ← Model.build_node_features inputs;
    '(snd, rcv, ef) ← Model.build_edge_features inputs;
    Some (built_graph st is_training nf snd rcv ef).
Proof.
  unfold Model._build_graph, mbind, M_bind, lift.
  destruct (Model.build_node_features inputs) as [nf|]; [|done].
  destruct (Model.build_edge_features inputs) as [[[snd rcv] ef]|]; [|done].
  simpl. unfold built_graph, mret, M_ret. simpl.
  rewrite <- app_assoc. done.
Qed.

Lemma build_graph_inv inputs is_training st g st' :
  Model._build_graph inputs is_training st = Some (g, st') →
  ∃ nf snd rcv ef,
    Model.build_node_features inputs = Some nf ∧
    Model.build_edge_features inputs = Some (snd, rcv, ef) ∧
    (g, st') = built_graph st is_training nf snd rcv ef.
Proof.
  rewrite build_graph_unfold. intros Hb.
  destruct (Model.build_node_features inputs) as [nf|]; [|done].
  destruct (Model.build_edge_features inputs) as [[[snd rcv] ef]|]; [|done].
  simpl in Hb. exists nf, snd, rcv, ef. by simplify_eq.
Qed.

Lemma build_node_features_ok inputs wp nt :
  inputs !! "world_pos" = Some (FloatTensor wp) →
  inputs !! "node_type" = Some (IntTensor nt) →
  length nt = length wp → Forall (λ row, row ≠ []) nt →
  ∃ col, column0 nt = Some col ∧
    Model.build_node_features inputs =
      Some (zip_with app (zeros_like wp) (one_hot col NodeType_SIZE)).
Proof.
  intros Hwp Hnt Hlen Hne.
  destruct (column0_nonempty nt Hne) as [col Hcol]. exists col. split; [done|].
  unfold Model.build_node_features.
  rewrite (getitem_float_Some _ _ _ Hwp), (getitem_int_Some _ _ _ Hnt). simpl.
  rewrite Hcol. simpl. unfold concat2.
  rewrite decide_True; [done|].
  unfold zeros_like, one_hot. rewrite !length_map.
  rewrite (column0_length _ _ Hcol). done.
Qed.

Lemma build_edge_features_inv inputs snd rcv ef :
  Model.build_edge_features inputs = Some (snd, rcv, ef) →
  ∃ cells wp mp ws wr ms mr dw dm,
    inputs !! "cells" = Some (IntTensor cells) ∧
    triangles_to_edges cells = (snd, rcv) ∧
    inputs !! "world_pos" = Some (FloatTensor wp) ∧
    inputs !! "mesh_pos" = Some (FloatTensor mp) ∧
    gather wp snd = Some ws ∧ gather wp rcv = Some wr ∧
    gather mp snd = Some ms ∧ gather mp rcv = Some mr ∧
    tensor_sub ws wr = Some dw ∧ tensor_sub ms mr = Some dm ∧
    length dw = length dm ∧
    ef = zip_with app (zip_with app (zip_with app dw (norm_keepdims dw)) dm)
                  (norm_keepdims dm).
Proof.
  unfold Model.build_edge_features. intros Hb.
  destruct (getitem_int inputs "cells") as [cells|] eqn:Hcells; [|done].
  simpl in Hb. destruct (triangles_to_edges cells) as [s r] eqn:Hte.
  destruct (getitem_float inputs "world_pos") as [wp|] eqn:Hwp; [|done].
  simpl in Hb. destruct (gather wp s) as [ws|] eqn:Hws; [|done].
  simpl in Hb. destruct (gather wp r) as [wr|] eqn:Hwr; [|done].
  simpl in Hb. destruct (tensor_sub ws wr) as [dw|] eqn:Hdw; [|done].
  simpl in Hb.
  destruct (getitem_float inputs "mesh_pos") as [mp|] eqn:Hmp; [|done].
  simpl in Hb. destruct (gather mp s) as [ms|] eqn:Hms; [|done].
  simpl in Hb. destruct (gather mp r) as [mr|] eqn:Hmr; [|done].
  simpl in Hb. destruct (tensor_sub ms mr) as [dm|] eqn:Hdm; [|done].
  simpl in Hb. unfold concat2 in Hb.
  repeat (case_decide; simpl in Hb; [|done]).
  simplify_eq.
  exists cells, wp, mp, ws, wr, ms, mr, dw, dm.
  repeat split; auto using getitem_int_inv, getitem_float_inv.
  match goal with H : length (zip_with _ _ _) = length dm |- _ =>
    rewrite length_zip_with in H; unfold norm_keepdims in H;
    rewrite length_map in H; lia end.
Qed.

Lemma edge_feature_row inputs snd rcv ef wp mp e s r :
  Model.build_edge_features inputs = Some (snd, rcv, ef) →
  inputs !! "world_pos" = Some (FloatTensor wp) →
  inputs !! "mesh_pos" = Some (FloatTensor mp) →
  snd !! e = Some s → rcv !! e = Some r →
  ∃ ws wr ms mr dw dm,
    wp !! Z.to_nat s = Some ws ∧ wp !! Z.to_nat r = Some wr ∧
    mp !! Z.to_nat s = Some ms ∧ mp !! Z.to_nat r = Some mr ∧
    broadcast (λ x y, Some (ssub x y)) ws wr = Some dw ∧
    broadcast (λ x y, Some (ssub x y)) ms mr = Some dm ∧
    ef !! e = Some (dw ++ [norm_row dw] ++ dm ++ [norm_row dm]).
Proof.
  intros Hb Hwp Hmp Hs Hr.
  apply build_edge_features_inv in Hb
    as (cells & wp' & mp' & gws & gwr & gms & gmr & tw & tm & _ & _ & Hwp' &
        Hmp' & Hgws & Hgwr & Hgms & Hgmr & Htw & Htm & Hlen & ->).
  assert (wp' = wp) as -> by congruence.
  assert (mp' = mp) as -> by congruence.
  destruct (gather_lookup _ _ _ _ _ Hgws Hs) as (_ & ws & Hws & Hews).
  destruct (gather_lookup _ _ _ _ _ Hgwr Hr) as (_ & wr & Hwr & Hewr).
  destruct (gather_lookup _ _ _ _ _ Hgms Hs) as (_ & ms & Hms & Hems).
  destruct (gather_lookup _ _ _ _ _ Hgmr Hr) as (_ & mr & Hmr & Hemr).
  destruct (tensor_binop_lookup _ _ _ _ _ _ _ Htw Hews Hewr) as (dw & Hdw & Hedw).
  destruct (tensor_binop_lookup _ _ _ _ _ _ _ Htm Hems Hemr) as (dm & Hdm & Hedm).
  exists ws, wr, ms, mr, dw, dm. repeat split; try done.
  rewrite !lookup_zip_with, !norm_keepdims_lookup, Hedw, Hedm. simpl.
  rewrite <- !app_assoc. done.
Qed.

Lemma build_edge_features_ok inputs wp mp cells n :
  inputs !! "world_pos" = Some (FloatTensor wp) →
  inputs !! "mesh_pos" = Some (FloatTensor mp) →
  inputs !! "cells" = Some (IntTensor cells) →
  has_shape n 3 wp → has_shape n 3 mp →
  length (triangles_to_edges cells).1 = length (triangles_to_edges cells).2 →
  Forall (λ i, 0 ≤ i < Z.of_nat n)%Z (triangles_to_edges cells).1 →
  Forall (λ i, 0 ≤ i < Z.of_nat n)%Z (triangles_to_edges cells).2 →
  ∃ ef, Model.build_edge_features inputs =
          Some ((triangles_to_edges cells).1, (triangles_to_edges cells).2, ef) ∧
        has_shape (length (triangles_to_edges cells).1) 8 ef.
Proof.
  intros Hwp Hmp Hcells Hswp Hsmp Hlen Hsnd Hrcv.
  unfold Model.build_edge_features.
  rewrite (getitem_int_Some _ _ _ Hcells), (getitem_float_Some _ _ _ Hwp),
    (getitem_float_Some _ _ _ Hmp). simpl.
  destruct (triangles_to_edges cells) as [snd rcv]. simpl in *.
  pose proof Hswp as [Hnw _]. pose proof Hsmp as [Hnm _].
  destruct (gather_in_range wp snd) as [ws Hws]; [by rewrite Hnw|].
  destruct (gather_in_range wp rcv) as [wr Hwr]; [by rewrite Hnw|].
  destruct (gather_in_range mp snd) as [ms Hms]; [by rewrite Hnm|].
  destruct (gather_in_range mp rcv) as [mr Hmr]; [by rewrite Hnm|].
  pose proof (gather_shape _ _ _ _ _ Hswp Hws) as Sws.
  pose proof (gather_shape _ _ _ _ _ Hswp Hwr) as Swr.
  pose proof (gather_shape _ _ _ _ _ Hsmp Hms) as Sms.
  pose proof (gather_shape _ _ _ _ _ Hsmp Hmr) as Smr.
  rewrite <- Hlen in Swr, Smr.
  rewrite Hws, Hwr, Hms, Hmr. simpl. unfold tensor_sub.
  rewrite (tensor_binop_same_shape _ _ _ _ _ Sws Swr),
    (tensor_binop_same_shape _ _ _ _ _ Sms Smr). simpl.
  pose proof (tensor_binop_shape ssub _ _ _ _ Sws Swr) as Sdw.
  pose proof (tensor_binop_shape ssub _ _ _ _ Sms Smr) as Sdm.
  set (dw := zip_with (zip_with ssub) ws wr) in *.
  set (dm := zip_with (zip_with ssub) ms mr) in *.
  pose proof (norm_keepdims_shape dw) as Snw.
  pose proof (norm_keepdims_shape dm) as Snm.
  rewrite (proj1 Sdw) in Snw. rewrite (proj1 Sdm) in Snm.
  pose proof (concat_shape _ _ _ _ _ Sdw Snw) as S1.
  pose proof (concat_shape _ _ _ _ _ S1 Sdm) as S2.
  pose proof (concat_shape _ _ _ _ _ S2 Snm) as S3.
  unfold concat2.
  rewrite decide_True by (rewrite (proj1 Sdw), (proj1 Snw); done). simpl.
  rewrite decide_True by (rewrite (proj1 S1), (proj1 Sdm); done). simpl.
  rewrite decide_True by (rewrite (proj1 S2), (proj1 Snm); done). simpl.
  eexists. split; [done|]. exact S3.
Qed.

Lemma build_graph_ok n inputs wp mp nt cells is_training st :
  mesh_state n inputs wp mp nt cells →
  ∃ col ef,
    column0 nt = Some col ∧
    Model.build_edge_features inputs =
      Some ((triangles_to_edges cells).1, (triangles_to_edges cells).2, ef) ∧
    has_shape (length (triangles_to_edges cells).1) 8 ef ∧
    Model._build_graph inputs is_training st =
      Some (built_graph st is_training
              (zip_with app (zeros_like wp) (one_hot col NodeType_SIZE))
              (triangles_to_edges cells).1 (triangles_to_edges cells).2 ef).
Proof.
  intros (Hwp & Hmp & Hnt & Hcells & Swp & Smp & Hlen & Hne & Hel & Hs & Hr).
  destruct (build_node_features_ok inputs wp nt Hwp Hnt) as (col & Hcol & Hnf);
    [by rewrite (proj1 Swp)|done|].
  destruct (build_edge_features_ok inputs wp mp cells n) as (ef & Hef & Sef);
    try done.
  exists col, ef. split; [done|]. split; [done|]. split; [done|].
  rewrite build_graph_unfold, Hnf, Hef. done.
Qed.

Lemma build_unfold inputs st :
  Model._build learned_model inputs st =
    '(g, st1) ← Model._build_graph inputs false st;
    wp ← getitem_float inputs "world_pos";
    new ← tensor_add wp (nz_inverse (_output_normalizer st1) (learned_model g));
    Some (new, log_call (Inverse OutputNormalizer) st1).
Proof.
  unfold Model._build, Model._update, Model.Normalizer_inverse, mbind, M_bind, lift.
  destruct (Model._build_graph inputs false st) as [[g st1]|]; [|done]. simpl.
  destruct (getitem_float inputs "world_pos") as [wp|]; [|done]. simpl.
  destruct (tensor_add _ _); done.
Qed.

Lemma loss_unfold inputs st :
  Model.loss learned_model inputs st =
    '(g, st1) ← Model._build_graph inputs true st;
    cur ← getitem_float inputs "world_pos";
    target ← getitem_float inputs "target|world_pos";
    td ← tensor_sub target cur;
    let r := nz_forward (_output_normalizer st1) td true in
    nt ← getitem_int inputs "node_type";
    col ← column0 nt;
    diff ← tensor_sub r.1 (learned_model g);
    masked ← boolean_mask (reduce_sum_axis1 (tensor_pow2 diff))
                          (equal_const col NodeType_NORMAL);
    Some (reduce_mean masked,
          set_slot OutputNormalizer r.2
            (log_call (Forward OutputNormalizer None) st1)).
Proof.
  unfold Model.loss, Model.Normalizer_call, mbind, M_bind, lift.
  destruct (Model._build_graph inputs true st) as [[g st1]|]; [|done]. simpl.
  destruct (getitem_float inputs "world_pos") as [wp|]; [|done]. simpl.
  destruct (getitem_float inputs "target|world_pos") as [tp|]; [|done]. simpl.
  destruct (tensor_sub tp wp) as [td|]; [|done]. simpl.
  destruct (getitem_int inputs "node_type") as [nt|]; [|done]. simpl.
  destruct (column0 nt) as [col|]; [|done]. simpl.
  destruct (tensor_sub _ _) as [diff|]; [|done]. simpl.
  destruct (boolean_mask _ _); done.
Qed.

(** Masking by a boolean tensor selects by index. *)
Lemma masked_by_index (errs : list F) (mask : list bool) (j : nat)
    (g : nat → F) (P : nat → Prop) `{!∀ i, Decision (P i)} :
  length errs = length mask →
  (∀ i e, errs !! i = Some e → e = g (j + i)) →
  (∀ i m, mask !! i = Some m → m = true ↔ P (j + i)) →
  fst <$> filter (λ p, p.2 = true) (zip errs mask)
    = g <$> filter P (seq j (length errs)).
Proof.
  revert mask j. induction errs as [|e errs IH]; intros [|m mask] j Hlen He Hm;
    simplify_eq/=; [done|].
  pose proof (He 0 e eq_refl) as He0. pose proof (Hm 0 m eq_refl) as Hm0.
  rewrite Nat.add_0_r in He0, Hm0.
  assert (fst <$> filter (λ p, p.2 = true) (zip errs mask)
          = g <$> filter P (seq (Datatypes.S j) (length errs))) as Htl.
  { apply IH; [done| |].
    - intros i e' Hi. rewrite (He (Datatypes.S i) e' Hi). f_equal. lia.
    - intros i m' Hi. rewrite (Hm (Datatypes.S i) m' Hi).
      by replace (j + Datatypes.S i) with (Datatypes.S j + i) by lia. }
  rewrite !filter_cons. simpl. destruct m.
  - rewrite decide_True by done. rewrite decide_True by (by apply Hm0).
    simpl. f_equal; [exact He0|exact Htl].
  - rewrite decide_False by done.
    rewrite decide_False by (intros HP; apply Hm0 in HP; done).
    exact Htl.
Qed.

Lemma fmap_zip_with_compose {A B C D} (f : C → D) (h : A → B → C) l k :
  f <$> zip_with h l k = zip_with (λ x y, f (h x y)) l k.
Proof. revert k. induction l; intros [|??]; f_equal/=; auto. Qed.

Lemma boolean_mask_normal (tn out : list (list F)) (col : list Z) n k :
  has_shape n k tn → has_shape n k out → length col = n →
  boolean_mask
    (reduce_sum_axis1 (tensor_pow2 (zip_with (zip_with ssub) tn out)))
    (equal_const col NodeType_NORMAL)
  = Some (map (λ i, node_error (default [] (tn !! i)) (default [] (out !! i)))
              (filter (λ i, col !! i = Some NodeType_NORMAL)
                      (seq 0 (length col)))).
Proof.
  intros [Hnt _] [Hno _] Hcol. unfold boolean_mask.
  assert (length (reduce_sum_axis1
                   (tensor_pow2 (zip_with (zip_with ssub) tn out))) = length col)
    as Hlen.
  { unfold reduce_sum_axis1, tensor_pow2.
    rewrite !length_map, length_zip_with. lia. }
  rewrite decide_True by (unfold equal_const; rewrite length_map; done).
  f_equal. rewrite <- Hlen.
  apply masked_by_index.
  - unfold equal_const. rewrite length_map. done.
  - intros i e. unfold reduce_sum_axis1, tensor_pow2. simpl.
    rewrite !list_lookup_fmap, lookup_zip_with.
    destruct (tn !! i) as [t|]; [|done]. destruct (out !! i) as [o|]; [|done].
    simpl. intros [= <-]. unfold node_error.
    by rewrite <- fmap_zip_with_compose.
  - intros i m. unfold equal_const. simpl. rewrite list_lookup_fmap.
    destruct (col !! i) as [c|]; [|done]. simpl. intros [= <-].
    rewrite Z.eqb_eq. naive_solver.
Qed.
End ModelLemmas.

(** ** Prediction and loss on a well-formed input record *)

Section Runs.
Context {F : Type} `{!Scalar F} {S : Type} `{!Normalizer F S} `{!Common}.
Variable learned_model : MultiGraph F → list (list F).

Lemma tensor_sub_same_shape (a b : list (list F)) n k :
  has_shape n k a → has_shape n k b → tensor_sub a b = Some (zip_with vsub a b).
Proof. apply tensor_binop_same_shape. Qed.

Lemma tensor_add_same_shape (a b : list (list F)) n k :
  has_shape n k a → has_shape n k b → tensor_add a b = Some (zip_with vadd a b).
Proof. apply tensor_binop_same_shape. Qed.

Lemma built_graph_frozen (st : ModelState S) nf snd rcv ef :
  statistics (built_graph st false nf snd rcv ef).2 = statistics st.
Proof.
  unfold built_graph, statistics. simpl. by rewrite !nz_forward_frozen.
Qed.

Lemma build_graph_frozen inputs (st : ModelState S) g st1 :
  Model._build_graph inputs false st = Some (g, st1) →
  statistics st1 = statistics st ∧
  calls st1 = calls st ++ [Forward EdgeNormalizer (Some false);
                           Forward NodeNormalizer (Some false)].
Proof.
  intros (nf & snd & rcv & ef & _ & _ & Hg)%build_graph_inv.
  pose proof (built_graph_frozen st nf snd rcv ef) as Hst.
  rewrite <- Hg in Hst. split; [exact Hst|].
  unfold built_graph in Hg. by simplify_eq.
Qed.

Lemma build_graph_output_normalizer inputs is_training (st : ModelState S) g st1 :
  Model._build_graph inputs is_training st = Some (g, st1) →
  _output_normalizer st1 = _output_normalizer st ∧
  calls st1 = calls st ++ [Forward EdgeNormalizer (Some is_training);
                           Forward NodeNormalizer (Some is_training)].
Proof.
  intros (nf & snd & rcv & ef & _ & _ & Hg)%build_graph_inv.
  unfold built_graph in Hg. by simplify_eq.
Qed.

Lemma build_inv inputs (st : ModelState S) new st' :
  Model._build learned_model inputs st = Some (new, st') →
  ∃ g st1 wp,
    Model._build_graph inputs false st = Some (g, st1) ∧
    inputs !! "world_pos" = Some (FloatTensor wp) ∧
    tensor_add wp (nz_inverse (_output_normalizer st) (learned_model g)) = Some new ∧
    st' = log_call (Inverse OutputNormalizer) st1.
Proof.
  rewrite build_unfold. intros Hb.
  destruct (Model._build_graph inputs false st) as [[g st1]|] eqn:Hg; [|done].
  simpl in Hb.
  destruct (getitem_float inputs "world_pos") as [wp|] eqn:Hwp; [|done].
  simpl in Hb.
  destruct (build_graph_output_normalizer _ _ _ _ _ Hg) as [Hout _].
  rewrite Hout in Hb.
  destruct (tensor_add _ _) as [new'|] eqn:Hadd; [|done]. simpl in Hb.
  exists g, st1, wp. split; [done|]. split; [by apply getitem_float_inv|].
  by simplify_eq.
Qed.

Lemma predict_ok n inputs wp mp nt cells (st : ModelState S) :
  mesh_state n inputs wp mp nt cells →
  (∀ g st1, Model._build_graph inputs false st = Some (g, st1) →
     has_shape n 3 (nz_inverse (_output_normalizer st) (learned_model g))) →
  ∃ g st1,
    Model._build_graph inputs false st = Some (g, st1) ∧
    Model._build learned_model inputs st =
      Some (zip_with vadd wp (nz_inverse (_output_normalizer st) (learned_model g)),
            log_call (Inverse OutputNormalizer) st1) ∧
    has_shape n 3
      (zip_with vadd wp (nz_inverse (_output_normalizer st) (learned_model g))).
Proof.
  intros Hmesh Hshape.
  destruct (build_graph_ok n inputs wp mp nt cells false st Hmesh)
    as (col & ef & _ & _ & _ & Hg).
  destruct (built_graph _ _ _ _ _ _) as [g st1]. exists g, st1.
  specialize (Hshape g st1 Hg).
  destruct Hmesh as (Hwp & _ & _ & _ & Swp & _).
  destruct (build_graph_output_normalizer _ _ _ _ _ Hg) as [Hout _].
  split; [done|]. split.
  - rewrite build_unfold, Hg. simpl.
    rewrite (getitem_float_Some _ _ _ Hwp). simpl. rewrite Hout.
    rewrite (tensor_add_same_shape _ _ _ _ Swp Hshape). done.
  - by apply tensor_binop_shape.
Qed.

Lemma loss_inv inputs (st : ModelState S) v st' :
  Model.loss learned_model inputs st = Some (v, st') →
  ∃ g st1 wp tp td,
    Model._build_graph inputs true st = Some (g, st1) ∧
    inputs !! "world_pos" = Some (FloatTensor wp) ∧
    inputs !! "target|world_pos" = Some (FloatTensor tp) ∧
    tensor_sub tp wp = Some td ∧
    st' = set_slot OutputNormalizer (nz_forward (_output_normalizer st) td true).2
            (log_call (Forward OutputNormalizer None) st1).
Proof.
  rewrite loss_unfold. intros Hl.
  destruct (Model._build_graph inputs true st) as [[g st1]|] eqn:Hg; [|done].
  simpl in Hl.
  destruct (getitem_float inputs "world_pos") as [wp|] eqn:Hwp; [|done].
  simpl in Hl.
  destruct (getitem_float inputs "target|world_pos") as [tp|] eqn:Htp; [|done].
  simpl in Hl. destruct (tensor_sub tp wp) as [td|] eqn:Htd; [|done].
  simpl in Hl.
  destruct (getitem_int inputs "node_type") as [nt|]; [|done]. simpl in Hl.
  destruct (column0 nt) as [col|]; [|done]. simpl in Hl.
  destruct (tensor_sub (nz_forward _ _ _).1 _) as [diff|]; [|done]. simpl in Hl.
  destruct (boolean_mask _ _) as [masked|]; [|done]. simpl in Hl.
  destruct (build_graph_output_normalizer _ _ _ _ _ Hg) as [Hout _].
  rewrite Hout in Hl.
  exists g, st1, wp, tp, td.
  repeat split; auto using getitem_float_inv. by simplify_eq.
Qed.

Lemma normal_nodes_column (nt : list (list Z)) col :
  column0 nt = Some col →
  filter (λ i, col !! i = Some NodeType_NORMAL) (seq 0 (length col))
  = normal_nodes nt.
Proof.
  intros Hcol. unfold normal_nodes. rewrite (column0_length _ _ Hcol).
  apply list_filter_iff. intros i. by rewrite (column0_lookup _ _ i Hcol).
Qed.

Lemma loss_ok n inputs wp mp nt cells tp (st : ModelState S) :
  mesh_state n inputs wp mp nt cells →
  inputs !! "target|world_pos" = Some (FloatTensor tp) →
  has_shape n 3 tp →
  has_shape n 3 (nz_forward (_output_normalizer st) (zip_with vsub tp wp) true).1 →
  (∀ g st1, Model._build_graph inputs true st = Some (g, st1) →
     has_shape n 3 (learned_model g)) →
  ∃ g st1 col st',
    Model._build_graph inputs true st = Some (g, st1) ∧
    column0 nt = Some col ∧ length col = n ∧
    Model.loss learned_model inputs st =
      Some (masked_mean_squared_error nt
              (nz_forward (_output_normalizer st) (zip_with vsub tp wp) true).1
              (learned_model g), st').
Proof.
  intros Hmesh Htp Stp Snorm Hout.
  destruct (build_graph_ok n inputs wp mp nt cells true st Hmesh)
    as (col & ef & Hcol & _ & _ & Hg).
  destruct (built_graph _ _ _ _ _ _) as [g st1].
  specialize (Hout g st1 Hg).
  destruct Hmesh as (Hwp & _ & Hnt & _ & Swp & _ & Hlen & _).
  destruct (build_graph_output_normalizer _ _ _ _ _ Hg) as [Hon _].
  assert (length col = n) as Hcoln by (by rewrite (column0_length _ _ Hcol)).
  exists g, st1, col. eexists. split; [done|]. split; [done|]. split; [done|].
  rewrite loss_unfold, Hg. simpl.
  rewrite (getitem_float_Some _ _ _ Hwp), (getitem_float_Some _ _ _ Htp). simpl.
  rewrite (tensor_sub_same_shape _ _ _ _ Stp Swp). simpl.
  rewrite (getitem_int_Some _ _ _ Hnt). simpl. rewrite Hcol. simpl.
  rewrite Hon.
  rewrite (tensor_sub_same_shape _ _ _ _ Snorm Hout). simpl.
  unfold vsub at 2.
  rewrite (boolean_mask_normal _ _ _ _ _ Snorm Hout Hcoln). simpl.
  rewrite (normal_nodes_column _ _ Hcol).
  unfold masked_mean_squared_error, reduce_mean, reduce_sum.
  rewrite length_map. done.
Qed.
End Runs.

(** ** The claims, for every scalar arithmetic and every collaborator *)

Section Claims.
Context {F : Type} `{!Scalar F} {S : Type} `{!Normalizer F S} `{!Common}.
Variable learned_model : MultiGraph F → list (list F).

(** C1.  On a well-formed input record whose [world_pos] has shape
    [[n, 3]], and with collaborators that return a per-node output of that
    shape, prediction builds the graph in non-training mode, runs the
    learned model on it, passes the output through the inverse transform
    of the output normalizer and returns [world_pos] plus that
    displacement, a tensor of shape [[n, 3]].  The only normalizer calls
    are the two non-training forward passes of the graph build and that
    inverse: nothing of the loss is evaluated. *)
Theorem predict_returns_updated_position n inputs wp mp nt cells
    (st : ModelState S) :
  mesh_state n inputs wp mp nt cells →
  (∀ g st1, Model._build_graph inputs false st = Some (g, st1) →
     has_shape n 3 (nz_inverse (_output_normalizer st) (learned_model g))) →
  ∃ g st1 st',
    Model._build_graph inputs false st = Some (g, st1) ∧
    Model._build learned_model inputs st =
      Some (zip_with vadd wp
              (nz_inverse (_output_normalizer st) (learned_model g)), st') ∧
    has_shape n 3
      (zip_with vadd wp (nz_inverse (_output_normalizer st) (learned_model g))) ∧
    calls st' = calls st ++ predict_calls.
Proof.
  intros Hmesh Hshape.
  destruct (predict_ok learned_model n inputs wp mp nt cells st Hmesh Hshape)
    as (g & st1 & Hg & Hb & Hs).
  exists g, st1, (log_call (Inverse OutputNormalizer) st1).
  split; [done|]. split; [done|]. split; [done|].
  destruct (build_graph_output_normalizer _ _ _ _ _ Hg) as [_ Hcalls].
  simpl. rewrite Hcalls, <- app_assoc. done.
Qed.

(** C2.  On a well-formed training record, with collaborators that keep
    the shape [[n, 3]], the loss is the mean, over exactly the nodes whose
    first node-type column is NORMAL, of the per-node sum over the spatial
    components of the squared difference between the normalized target
    displacement ([target|world_pos - world_pos] through the forward
    transform of the output normalizer) and the raw output of the learned
    model: the sum of these per-node errors over their number.  The error
    of a node is the sum of the three squares of its row, a node is
    selected exactly when the first entry of its [node_type] row is
    NORMAL, and rows of other nodes do not enter the loss. *)
Theorem loss_is_masked_mean_squared_error n inputs wp mp nt cells tp
    (st : ModelState S) :
  mesh_state n inputs wp mp nt cells →
  inputs !! "target|world_pos" = Some (FloatTensor tp) →
  has_shape n 3 tp →
  has_shape n 3 (nz_forward (_output_normalizer st) (zip_with vsub tp wp) true).1 →
  (∀ g st1, Model._build_graph inputs true st = Some (g, st1) →
     has_shape n 3 (learned_model g)) →
  ∃ g st1 st',
    Model._build_graph inputs true st = Some (g, st1) ∧
    let target_normalized :=
      (nz_forward (_output_normalizer st) (zip_with vsub tp wp) true).1 in
    let network_output := learned_model g in
    let error i :=
      ssum (zip_with (λ t o, spow2 (ssub t o))
              (default [] (target_normalized !! i))
              (default [] (network_output !! i))) in
    Model.loss learned_model inputs st =
      Some (sdiv (ssum (error <$> normal_nodes nt))
                 (sof_nat (length (normal_nodes nt))), st') ∧
    (∀ i, i ∈ normal_nodes nt ↔
          i < n ∧ ∃ row, nt !! i = Some (NodeType_NORMAL :: row)) ∧
    (∀ i, i < n → ∃ t1 t2 t3 o1 o2 o3,
       target_normalized !! i = Some [t1; t2; t3] ∧
       network_output !! i = Some [o1; o2; o3] ∧
       error i = ssum [spow2 (ssub t1 o1); spow2 (ssub t2 o2);
                       spow2 (ssub t3 o3)]) ∧
    (∀ target' output' : list (list F),
       (∀ i, i ∈ normal_nodes nt →
          target' !! i = target_normalized !! i ∧
          output' !! i = network_output !! i) →
       masked_mean_squared_error nt target' output' =
       masked_mean_squared_error nt target_normalized network_output).
Proof.
  intros Hmesh Htp Stp Snorm Hout.
  destruct (loss_ok learned_model n inputs wp mp nt cells tp st
              Hmesh Htp Stp Snorm Hout) as (g & st1 & col & st' & Hg & Hcol & _ & Hl).
  specialize (Hout g st1 Hg).
  destruct Hmesh as (_ & _ & _ & _ & _ & _ & Hlen & _).
  exists g, st1, st'. split; [done|]. simpl. split; [exact Hl|]. split; [|split].
  - intros i. unfold normal_nodes.
    rewrite list_elem_of_filter, elem_of_seq, Hlen. split.
    + intros [Hhead Hi]. split; [lia|].
      destruct (nt !! i) as [[|ty row]|]; simplify_eq/=. eauto.
    + intros [Hi (row & Hrow)]. rewrite Hrow. split; [done|lia].
  - intros i Hi.
    destruct (lookup_lt_is_Some_2
                (nz_forward (_output_normalizer st) (zip_with vsub tp wp) true).1 i)
      as [t Ht]; [rewrite (proj1 Snorm); lia|].
    destruct (lookup_lt_is_Some_2 (learned_model g) i) as [o Ho];
      [rewrite (proj1 Hout); lia|].
    pose proof (Forall_lookup_1 _ _ _ _ (proj2 Snorm) Ht) as Ht3.
    pose proof (Forall_lookup_1 _ _ _ _ (proj2 Hout) Ho) as Ho3.
    destruct t as [|t1 [|t2 [|t3 [|? ?]]]]; simplify_eq/=.
    destruct o as [|o1 [|o2 [|o3 [|? ?]]]]; simplify_eq/=.
    exists t1, t2, t3, o1, o2, o3. rewrite Ht, Ho. done.
  - intros target' output' Hagree. unfold masked_mean_squared_error.
    do 2 f_equal. apply list_fmap_ext. intros k i Hk.
    apply list_elem_of_lookup_2 in Hk.
    destruct (Hagree i Hk) as [-> ->]. done.
Qed.

(** C3.  On a well-formed input record the unnormalized feature vector of
    every edge [(s, r)] that the converter derives from [cells] is the
    concatenation of [world_pos[s] - world_pos[r]], its Euclidean norm
    (the square root of the sum of the squares of its three components),
    [mesh_pos[s] - mesh_pos[r]] and its Euclidean norm, eight scalars in
    this order; the graph carries the single edge set "mesh_edges", whose
    features are these passed through the edge normalizer and whose index
    arrays are the converter's. *)
Theorem edge_features_of_mesh n inputs wp mp nt cells :
  mesh_state n inputs wp mp nt cells →
  ∃ ef,
    Model.build_edge_features inputs =
      Some ((triangles_to_edges cells).1, (triangles_to_edges cells).2, ef) ∧
    has_shape (length (triangles_to_edges cells).1) 8 ef ∧
    (∀ e s r,
       (triangles_to_edges cells).1 !! e = Some s →
       (triangles_to_edges cells).2 !! e = Some r →
       ∃ a1 a2 a3 b1 b2 b3 p1 p2 p3 q1 q2 q3,
         wp !! Z.to_nat s = Some [a1; a2; a3] ∧
         wp !! Z.to_nat r = Some [b1; b2; b3] ∧
         mp !! Z.to_nat s = Some [p1; p2; p3] ∧
         mp !! Z.to_nat r = Some [q1; q2; q3] ∧
         let w1 := ssub a1 b1 in let w2 := ssub a2 b2 in let w3 := ssub a3 b3 in
         let m1 := ssub p1 q1 in let m2 := ssub p2 q2 in let m3 := ssub p3 q3 in
         ef !! e =
           Some [w1; w2; w3;
                 ssqrt (ssum [smul w1 w1; smul w2 w2; smul w3 w3]);
                 m1; m2; m3;
                 ssqrt (ssum [smul m1 m1; smul m2 m2; smul m3 m3])]) ∧
    (∀ is_training (st : ModelState S), ∃ g st',
       Model._build_graph inputs is_training st = Some (g, st') ∧
       edge_sets g =
         [{| name := "mesh_edges";
             features := (nz_forward (_edge_normalizer st) ef is_training).1;
             senders := (triangles_to_edges cells).1;
             receivers := (triangles_to_edges cells).2 |}]).
Proof.
  intros Hmesh.
  pose proof Hmesh as (Hwp & Hmp & _ & _ & Swp & Smp & _).
  destruct (build_edge_features_ok inputs wp mp cells n) as (ef & Hef & Sef);
    try (by apply Hmesh).
  exists ef. split; [done|]. split; [done|]. split.
  - intros e s r Hs Hr.
    destruct (edge_feature_row inputs _ _ ef wp mp e s r Hef Hwp Hmp Hs Hr)
      as (ws & wr & ms & mr & dw & dm & Hws & Hwr & Hms & Hmr & Hdw & Hdm & Hrow).
    destruct Swp as [_ Swp]. destruct Smp as [_ Smp].
    pose proof (Forall_lookup_1 _ _ _ _ Swp Hws) as Lws.
    pose proof (Forall_lookup_1 _ _ _ _ Swp Hwr) as Lwr.
    pose proof (Forall_lookup_1 _ _ _ _ Smp Hms) as Lms.
    pose proof (Forall_lookup_1 _ _ _ _ Smp Hmr) as Lmr.
    simpl in Lws, Lwr, Lms, Lmr.
    rewrite broadcast_scalar in Hdw, Hdm by congruence.
    destruct ws as [|a1 [|a2 [|a3 [|? ?]]]]; try discriminate Lws.
    destruct wr as [|b1 [|b2 [|b3 [|? ?]]]]; try discriminate Lwr.
    destruct ms as [|p1 [|p2 [|p3 [|? ?]]]]; try discriminate Lms.
    destruct mr as [|q1 [|q2 [|q3 [|? ?]]]]; try discriminate Lmr.
    exists a1, a2, a3, b1, b2, b3, p1, p2, p3, q1, q2, q3.
    repeat (split; [done|]). simpl in Hdw, Hdm. simplify_eq. exact Hrow.
  - intros is_training st.
    destruct (build_graph_ok n inputs wp mp nt cells is_training st Hmesh)
      as (col' & ef' & _ & Hef' & _ & Hg).
    assert (ef' = ef) as -> by congruence.
    eexists _, _. split; [exact Hg|]. done.
Qed.

(** C4.  On a well-formed input record the unnormalized node feature
    matrix holds, for each node, three zeros (the velocity placeholder,
    shaped like [world_pos]) followed by the one-hot encoding of the first
    node-type column over [NodeType.SIZE] categories (one at the position
    of the node's type, zero at every other), so its width is
    [3 + NodeType.SIZE], the size with which the node normalizer is
    constructed; the graph's node features are this matrix passed through
    the node normalizer with the training flag of the call. *)
Theorem node_features_of_mesh n inputs wp mp nt cells :
  mesh_state n inputs wp mp nt cells →
  ∃ nf,
    Model.build_node_features inputs = Some nf ∧
    has_shape n (3 + NodeType_SIZE) nf ∧
    (∀ i, i < n → ∃ ty row,
       nt !! i ≫= head = Some ty ∧ nf !! i = Some row ∧
       (∀ j, j < 3 → row !! j = Some szero) ∧
       (∀ j, j < NodeType_SIZE →
          row !! (3 + j) =
            Some (if decide (Z.of_nat j = ty) then sone else szero))) ∧
    (∀ is_training (st : ModelState S), ∃ g st',
       Model._build_graph inputs is_training st = Some (g, st') ∧
       node_features g = (nz_forward (_node_normalizer st) nf is_training).1 ∧
       _node_normalizer st' = (nz_forward (_node_normalizer st) nf is_training).2 ∧
       calls st' = calls st ++ [Forward EdgeNormalizer (Some is_training);
                                Forward NodeNormalizer (Some is_training)]) ∧
    _node_normalizer (S:=S) Model.__init__ =
      nz_new (3 + NodeType_SIZE) "node_normalizer".
Proof.
  intros Hmesh.
  pose proof Hmesh as (Hwp & _ & Hnt & _ & Swp & _ & Hlen & Hne & _).
  destruct (build_node_features_ok inputs wp nt Hwp Hnt) as (col & Hcol & Hnf);
    [by rewrite (proj1 Swp)|done|].
  pose proof (column0_length _ _ Hcol) as Hcl.
  assert (∀ i ty, col !! i = Some ty →
            zip_with app (zeros_like wp) (one_hot col NodeType_SIZE) !! i
            = Some ([szero; szero; szero] ++ one_hot_row NodeType_SIZE ty)) as Hrow.
  { intros i ty Hi. unfold zeros_like, one_hot.
    rewrite lookup_zip_with, !list_lookup_fmap, Hi.
    destruct (wp !! i) as [p|] eqn:Hp.
    - pose proof (Forall_lookup_1 _ _ _ _ (proj2 Swp) Hp) as Hp3.
      destruct p as [|? [|? [|? [|? ?]]]]; simplify_eq/=. done.
    - apply lookup_ge_None in Hp. apply lookup_lt_Some in Hi.
      rewrite (proj1 Swp) in Hp. lia. }
  exists (zip_with app (zeros_like wp) (one_hot col NodeType_SIZE)).
  split; [done|]. split; [|split; [|split]].
  - split.
    + unfold zeros_like, one_hot. rewrite length_zip_with, !length_map.
      rewrite (proj1 Swp). lia.
    + apply Forall_lookup. intros i row Hi.
      assert (is_Some (col !! i)) as [ty Hty].
      { apply lookup_lt_is_Some. apply lookup_lt_Some in Hi.
        unfold zeros_like, one_hot in Hi.
        rewrite length_zip_with, !length_map in Hi. lia. }
      rewrite (Hrow i ty Hty) in Hi. simplify_eq.
      unfold one_hot_row. simpl. rewrite length_map, length_seq. done.
  - intros i Hi.
    destruct (lookup_lt_is_Some_2 col i) as [ty Hty]; [lia|].
    exists ty, ([szero; szero; szero] ++ one_hot_row NodeType_SIZE ty).
    split; [by rewrite <- (column0_lookup _ _ i Hcol)|].
    split; [by apply Hrow|]. split.
    + intros j Hj. by destruct j as [|[|[|j]]]; [| | |lia].
    + intros j Hj. rewrite lookup_app_r by (simpl; lia).
      replace (3 + j - length [szero; szero; szero]) with j by (simpl; lia).
      unfold one_hot_row. rewrite list_lookup_fmap, lookup_seq_lt by done.
      simpl. f_equal. destruct (Z.eqb_spec (Z.of_nat j) ty); by case_decide.
  - intros is_training st.
    destruct (build_graph_ok n inputs wp mp nt cells is_training st Hmesh)
      as (col' & ef & Hcol' & _ & _ & Hg).
    assert (col' = col) as -> by congruence.
    eexists _, _. split; [exact Hg|]. done.
  - done.
Qed.

(** C5.  Whenever the loss is evaluated, the forward pass of the output
    normalizer on the target displacement is issued without an
    [accumulate] argument: the flag takes the normalizer's default, and the
    statistics of the output normalizer become the accumulated ones.  The
    training flag of the graph build has no part in it: a call without the
    argument accumulates from every state, and a graph build leaves the
    output normalizer alone under either flag. *)
Theorem loss_output_normalizer_accumulates inputs (st : ModelState S) v st' :
  Model.loss learned_model inputs st = Some (v, st') →
  ∃ wp tp td,
    inputs !! "world_pos" = Some (FloatTensor wp) ∧
    inputs !! "target|world_pos" = Some (FloatTensor tp) ∧
    tensor_sub tp wp = Some td ∧
    _output_normalizer st' = (nz_forward (_output_normalizer st) td true).2 ∧
    calls st' = calls st ++ loss_calls ∧
    (∀ s : ModelState S,
       Model.Normalizer_call OutputNormalizer td None s =
       Some ((nz_forward (_output_normalizer s) td true).1,
             set_slot OutputNormalizer
               (nz_forward (_output_normalizer s) td true).2
               (log_call (Forward OutputNormalizer None) s))) ∧
    (∀ is_training (s : ModelState S) g s1,
       Model._build_graph inputs is_training s = Some (g, s1) →
       _output_normalizer s1 = _output_normalizer s).
Proof.
  intros (g & st1 & wp & tp & td & Hg & Hwp & Htp & Htd & ->)%loss_inv.
  exists wp, tp, td.
  destruct (build_graph_output_normalizer _ _ _ _ _ Hg) as [_ Hcalls].
  split; [done|]. split; [done|]. split; [done|]. split; [done|]. split.
  - simpl. rewrite Hcalls, <- app_assoc. done.
  - split; [done|]. intros is_training s g' s1 Hg'.
    by apply (build_graph_output_normalizer _ _ _ _ _ Hg').
Qed.

(** C6.  Prediction never changes the running statistics: after any
    number of predictions, on any records and from any statistics of the
    node, edge and output normalizers, the three statistics are what they
    were, since each prediction issues only forward passes with
    [accumulate = False] and the inverse transform. *)
Theorem predict_preserves_statistics records (st : ModelState S) outs st' :
  predict_all learned_model records st = Some (outs, st') →
  statistics st' = statistics st ∧
  length outs = length records ∧
  calls st' = calls st ++ flat_map (λ _, predict_calls) records.
Proof.
  unfold predict_all. revert st outs st'.
  induction records as [|inputs records IH]; intros st outs st' Hrun.
  - simpl in Hrun. unfold mret, M_ret in Hrun. simplify_eq.
    simpl. by rewrite app_nil_r.
  - simpl in Hrun. unfold mbind, M_bind in Hrun.
    destruct (Model._build learned_model inputs st) as [[new st1]|] eqn:Hb;
      [|done].
    destruct (mapM (Model._build learned_model) records st1)
      as [[outs' st2]|] eqn:Hrest; [|done].
    unfold mret, M_ret in Hrun. simplify_eq.
    destruct (IH _ _ _ Hrest) as (Hstat & Hlen & Hcalls).
    apply build_inv in Hb as (g & st0 & wp & Hg & _ & _ & ->).
    destruct (build_graph_frozen _ _ _ _ Hg) as [Hst0 Hc0].
    split; [|split].
    + rewrite Hstat. unfold statistics in *. simpl. exact Hst0.
    + simpl. by rewrite Hlen.
    + rewrite Hcalls. simpl. rewrite Hc0, <- !app_assoc. done.
Qed.

(** C9.  Prediction adds the displacement to the position of every node,
    whatever its type: the row of each node [i], of NORMAL type or not, is
    [world_pos[i]] plus the inverse-normalized output for [i], and the
    update step does not read [node_type] at all. *)
Theorem predict_displaces_every_node n inputs wp mp nt cells
    (st : ModelState S) :
  mesh_state n inputs wp mp nt cells →
  (∀ g st1, Model._build_graph inputs false st = Some (g, st1) →
     has_shape n 3 (nz_inverse (_output_normalizer st) (learned_model g))) →
  ∃ g st1 new st',
    Model._build_graph inputs false st = Some (g, st1) ∧
    Model._build learned_model inputs st = Some (new, st') ∧
    (∀ i ty, nt !! i ≫= head = Some ty →
       ∃ p d, wp !! i = Some p ∧
              nz_inverse (_output_normalizer st) (learned_model g) !! i = Some d ∧
              new !! i = Some (vadd p d)) ∧
    (∀ t output (s : ModelState S),
       Model._update (<["node_type" := t]> inputs) output s =
       Model._update inputs output s).
Proof.
  intros Hmesh Hshape.
  destruct (predict_ok learned_model n inputs wp mp nt cells st Hmesh Hshape)
    as (g & st1 & Hg & Hb & Hs).
  specialize (Hshape g st1 Hg).
  destruct Hmesh as (_ & _ & _ & _ & Swp & _ & Hlen & _).
  exists g, st1. eexists _, _. split; [done|]. split; [exact Hb|]. split.
  - intros i ty Hty.
    assert (i < n) as Hi.
    { destruct (nt !! i) eqn:Hnti; [|done]. apply lookup_lt_Some in Hnti. lia. }
    destruct (lookup_lt_is_Some_2 wp i) as [p Hp]; [rewrite (proj1 Swp); lia|].
    destruct (lookup_lt_is_Some_2
                (nz_inverse (_output_normalizer st) (learned_model g)) i)
      as [d Hd]; [rewrite (proj1 Hshape); lia|].
    exists p, d. split; [done|]. split; [done|].
    rewrite lookup_zip_with, Hp, Hd. done.
  - intros t output s. unfold Model._update, getitem_float.
    rewrite lookup_insert_ne by done. done.
Qed.

(** C10.  Prediction does not read [target|world_pos]: two records that
    agree on [world_pos], [mesh_pos], [node_type] and [cells] give, from
    the same normalizer state and learned model, the same result, whether
    or not either of them holds a target. *)
Theorem predict_ignores_target (inputs1 inputs2 : gmap string (Tensor F))
    (st : ModelState S) :
  inputs1 !! "world_pos" = inputs2 !! "world_pos" →
  inputs1 !! "mesh_pos" = inputs2 !! "mesh_pos" →
  inputs1 !! "node_type" = inputs2 !! "node_type" →
  inputs1 !! "cells" = inputs2 !! "cells" →
  Model._build learned_model inputs1 st = Model._build learned_model inputs2 st.
Proof.
  intros Hwp Hmp Hnt Hcells.
  rewrite !build_unfold, !build_graph_unfold.
  unfold Model.build_node_features, Model.build_edge_features,
    getitem_float, getitem_int.
  rewrite Hwp, Hmp, Hnt, Hcells. done.
Qed.
End Claims.

(** ** The numerical claims, in IEEE-754 single precision *)

Section Binary32.
Import binary32.
Context {S : Type} `{!Normalizer spec_float S} `{!Common}.
Variable learned_model : MultiGraph spec_float → list (list spec_float).

Lemma filter_none {A} (P : A → Prop) `{!∀ x, Decision (P x)} (l : list A) :
  Forall (λ x, ¬ P x) l → filter P l = [].
Proof.
  induction 1 as [|x l Hx _ IH]; [done|].
  rewrite filter_cons, decide_False by done. exact IH.
Qed.

(** C7.  When no node is of NORMAL type the loss mask selects nothing and
    the loss is the mean of an empty tensor, zero divided by a count of
    zero, which in single precision is NaN; no other value is substituted
    for it. *)
Theorem loss_without_normal_nodes_is_nan n inputs wp mp nt cells tp
    (st : ModelState S) :
  mesh_state n inputs wp mp nt cells →
  inputs !! "target|world_pos" = Some (FloatTensor tp) →
  has_shape n 3 tp →
  has_shape n 3 (nz_forward (_output_normalizer st) (zip_with vsub tp wp) true).1 →
  (∀ g st1, Model._build_graph inputs true st = Some (g, st1) →
     has_shape n 3 (learned_model g)) →
  Forall (λ row, head row ≠ Some NodeType_NORMAL) nt →
  ∃ col st',
    column0 nt = Some col ∧
    filter (λ b, b = true) (equal_const col NodeType_NORMAL) = [] ∧
    reduce_mean (F:=spec_float) [] = S754_nan ∧
    Model.loss learned_model inputs st = Some (S754_nan, st').
Proof.
  intros Hmesh Htp Stp Snorm Hout Hnone.
  destruct (loss_ok learned_model n inputs wp mp nt cells tp st
              Hmesh Htp Stp Snorm Hout) as (g & st1 & col & st' & _ & Hcol & _ & Hl).
  assert (Forall (λ c, c ≠ NodeType_NORMAL) col) as Hcolne.
  { apply Forall_lookup. intros i c Hi.
    rewrite (column0_lookup _ _ i Hcol) in Hi.
    destruct (nt !! i) as [row|] eqn:Hrow; [|done]. simpl in Hi.
    pose proof (Forall_lookup_1 _ _ _ _ Hnone Hrow) as Hrw. simpl in Hrw.
    congruence. }
  exists col, st'. split; [done|]. split; [|split; [done|]].
  - apply filter_none. unfold equal_const. apply Forall_map.
    eapply Forall_impl; [exact Hcolne|]. simpl. intros c Hc.
    rewrite Z.eqb_eq. done.
  - rewrite Hl. do 2 f_equal. unfold masked_mean_squared_error.
    rewrite <- (normal_nodes_column _ _ Hcol).
    rewrite filter_none; [done|].
    apply Forall_lookup. intros k i Hk Hik.
    apply lookup_seq in Hk as [-> _].
    exact (Forall_lookup_1 _ _ _ _ Hcolne Hik eq_refl).
Qed.

(** C8.  For an edge between a node at world position (0, 0, 0) and a node
    at (3, 4, 0), in either direction, the norm component of the relative
    world position in the unnormalized edge features (index 3) is exactly
    5.0. *)
Theorem edge_norm_of_3_4_0 inputs wp snd rcv ef e s r :
  inputs !! "world_pos" = Some (FloatTensor wp) →
  Model.build_edge_features inputs = Some (snd, rcv, ef) →
  snd !! e = Some s → rcv !! e = Some r →
  (wp !! Z.to_nat s = Some (vec3 0 0 0) ∧ wp !! Z.to_nat r = Some (vec3 3 4 0)) ∨
  (wp !! Z.to_nat s = Some (vec3 3 4 0) ∧ wp !! Z.to_nat r = Some (vec3 0 0 0)) →
  ∃ row, ef !! e = Some row ∧ row !! 3 = Some (of_Z 5).
Proof.
  intros Hwp Hef Hs Hr Hpos.
  destruct (build_edge_features_inv _ _ _ _ Hef)
    as (_ & _ & mp & _ & _ & _ & _ & _ & _ & _ & _ & _ & Hmp & _).
  destruct (edge_feature_row inputs snd rcv ef wp mp e s r Hef Hwp Hmp Hs Hr)
    as (ws & wr & ms & mr & dw & dm & Hws & Hwr & _ & _ & Hdw & _ & Hrow).
  eexists. split; [exact Hrow|].
  destruct Hpos as [[Hs0 Hr0]|[Hs0 Hr0]];
    rewrite Hws in Hs0; rewrite Hwr in Hr0; simplify_eq;
    vm_compute in Hdw; simplify_eq; vm_compute; done.
Qed.
End Binary32.

(** ** The claims on the single-triangle mesh *)

Section FixtureRuns.
Import binary32 Fixture.

Ltac shape := split; [reflexivity|repeat constructor].

Lemma fixture_mesh_state :
  mesh_state 3 inputs world_pos mesh_pos node_type cells.
Proof.
  unfold mesh_state. repeat split; try reflexivity; try (by repeat constructor).
Defined.

Lemma fixture_training_mesh_state :
  mesh_state 3 training_inputs world_pos mesh_pos node_type cells.
Proof.
  unfold mesh_state. repeat split; try reflexivity; try (by repeat constructor).
Defined.

Lemma fixture_obstacle_mesh_state :
  mesh_state 3 obstacle_inputs world_pos mesh_pos obstacle_node_type cells.
Proof.
  unfold mesh_state. repeat split; try reflexivity; try (by repeat constructor).
Defined.

Lemma fixture_inverse_shape g st1 :
  Model._build_graph inputs false state = Some (g, st1) →
  has_shape 3 3 (nz_inverse (_output_normalizer state) (learned_model g)).
Proof. intros Hg. vm_compute in Hg. injection Hg as <- <-. shape. Defined.

Lemma fixture_output_shape (records : gmap string (Tensor spec_float)) g st1 :
  records = training_inputs ∨ records = obstacle_inputs →
  Model._build_graph records true state = Some (g, st1) →
  has_shape 3 3 (learned_model g).
Proof.
  intros [-> | ->] Hg; vm_compute in Hg; injection Hg as <- <-; shape.
Defined.

Lemma fixture_normalized_shape :
  has_shape 3 3
    (nz_forward (_output_normalizer state)
       (zip_with vsub target_world_pos world_pos) true).1.
Proof. shape. Defined.

Lemma fixture_edge_features :
  ∃ ef,
    Model.build_edge_features inputs =
      Some ([0; 1; 2; 1; 2; 0]%Z, [1; 2; 0; 0; 1; 2]%Z, ef).
Proof. vm_compute. eexists. reflexivity. Defined.

(** On the fixture the loss does change the running statistics of all
    three normalizers, which prediction never does. *)
Example loss_updates_statistics_on_fixture :
  ∃ v st',
    Model.loss learned_model training_inputs state = Some (v, st') ∧
    acc_count (_output_normalizer st') = 3 ∧
    acc_count (_node_normalizer st') = 3 ∧
    acc_count (_edge_normalizer st') = 6 ∧
    statistics st' ≠ statistics state.
Proof.
  destruct (Model.loss learned_model training_inputs state) as [[v st']|] eqn:Hl;
    [|vm_compute in Hl; discriminate].
  vm_compute in Hl. injection Hl as <- <-.
  eexists _, _. repeat split. discriminate.
Qed.

Lemma predict_returns_updated_position_witness :
  ∃ g st1 st',
    Model._build_graph inputs false state = Some (g, st1) ∧
    Model._build learned_model inputs state =
      Some (zip_with vadd world_pos
              (nz_inverse (_output_normalizer state) (learned_model g)), st') ∧
    has_shape 3 3
      (zip_with vadd world_pos
         (nz_inverse (_output_normalizer state) (learned_model g))) ∧
    calls st' = calls state ++ predict_calls.
Proof.
  apply (predict_returns_updated_position learned_model 3 inputs
           world_pos mesh_pos node_type cells state).
  - exact fixture_mesh_state.
  - exact fixture_inverse_shape.
Defined.

Lemma loss_is_masked_mean_squared_error_witness :
  normal_nodes node_type = [0; 2] ∧
  ∃ st',
    Model.loss learned_model training_inputs state =
      Some (S754_finite false 14447046 (-23), st').
Proof.
  split; [reflexivity|].
  destruct (loss_is_masked_mean_squared_error learned_model 3 training_inputs
              world_pos mesh_pos node_type cells target_world_pos state)
    as (g & st1 & st' & Hg & Hrest).
  - exact fixture_training_mesh_state.
  - reflexivity.
  - shape.
  - exact fixture_normalized_shape.
  - intros g st1. apply fixture_output_shape. by left.
  - cbv zeta in Hrest. destruct Hrest as (Hl & _).
    vm_compute in Hg. injection Hg as <- <-.
    exists st'. rewrite Hl. do 2 f_equal.
Defined.

Lemma edge_features_of_mesh_witness :
  ∃ ef,
    Model.build_edge_features inputs =
      Some ([0; 1; 2; 1; 2; 0]%Z, [1; 2; 0; 0; 1; 2]%Z, ef) ∧
    has_shape 6 8 ef ∧
    ef !! 0 = Some [of_Z (-3); of_Z (-4); of_Z 0; of_Z 5;
                    of_Z (-1); of_Z 0; of_Z 0; of_Z 1].
Proof.
  destruct (edge_features_of_mesh (S:=stats) 3 inputs world_pos mesh_pos
              node_type cells fixture_mesh_state) as (ef & Hef & Sef & Hrow & _).
  exists ef. split; [exact Hef|]. split; [exact Sef|].
  destruct (Hrow 0 0%Z 1%Z eq_refl eq_refl)
    as (a1 & a2 & a3 & b1 & b2 & b3 & p1 & p2 & p3 & q1 & q2 & q3 &
        Ha & Hb & Hp & Hq & He).
  vm_compute in Ha, Hb, Hp, Hq.
  injection Ha as <- <- <-. injection Hb as <- <- <-.
  injection Hp as <- <- <-. injection Hq as <- <- <-.
  cbv zeta in He. rewrite He. reflexivity.
Defined.

Lemma node_features_of_mesh_witness :
  ∃ nf row,
    Model.build_node_features inputs = Some nf ∧ has_shape 3 12 nf ∧
    nf !! 1 = Some row ∧
    row !! 0 = Some (of_Z 0) ∧ row !! 3 = Some (of_Z 0) ∧
    row !! 4 = Some (of_Z 1) ∧ row !! 5 = Some (of_Z 0).
Proof.
  destruct (node_features_of_mesh (S:=stats) 3 inputs world_pos mesh_pos
              node_type cells fixture_mesh_state)
    as (nf & Hnf & Snf & Hrow & _).
  destruct (Hrow 1) as (ty & row & Hty & Hr & Hzero & Hhot); [lia|].
  injection Hty as <-.
  exists nf, row. split; [exact Hnf|]. split; [exact Snf|]. split; [exact Hr|].
  split; [apply (Hzero 0); lia|].
  split; [apply (Hhot 0); simpl; lia|].
  split; [apply (Hhot 1); simpl; lia|apply (Hhot 2); simpl; lia].
Defined.

Lemma loss_output_normalizer_accumulates_witness :
  ∃ v st' td,
    Model.loss learned_model training_inputs state = Some (v, st') ∧
    tensor_sub target_world_pos world_pos = Some td ∧
    _output_normalizer st' = (nz_forward (_output_normalizer state) td true).2 ∧
    calls st' = calls state ++ loss_calls.
Proof.
  destruct (Model.loss learned_model training_inputs state) as [[v st']|] eqn:Hl;
    [|vm_compute in Hl; discriminate].
  destruct (loss_output_normalizer_accumulates learned_model training_inputs
              state v st' Hl) as (wp & tp & td & Hwp & Htp & Htd & Hout & Hc & _).
  vm_compute in Hwp, Htp. injection Hwp as <-. injection Htp as <-.
  exists v, st', td. split; [reflexivity|]. split; [exact Htd|].
  split; [exact Hout|exact Hc].
Defined.

Lemma predict_preserves_statistics_witness :
  ∃ outs st',
    predict_all learned_model [inputs; training_inputs; inputs] state
      = Some (outs, st') ∧
    statistics st' = statistics state ∧ length outs = 3.
Proof.
  destruct (predict_all learned_model [inputs; training_inputs; inputs] state)
    as [[outs st']|] eqn:Hrun; [|vm_compute in Hrun; discriminate].
  destruct (predict_preserves_statistics learned_model _ state outs st' Hrun)
    as (Hstat & Hlen & _).
  exists outs, st'. split; [reflexivity|]. split; [exact Hstat|exact Hlen].
Defined.

Lemma loss_without_normal_nodes_is_nan_witness :
  ∃ st', Model.loss learned_model obstacle_inputs state = Some (S754_nan, st').
Proof.
  destruct (loss_without_normal_nodes_is_nan learned_model 3 obstacle_inputs
              world_pos mesh_pos obstacle_node_type cells target_world_pos state)
    as (col & st' & _ & _ & _ & Hl).
  - exact fixture_obstacle_mesh_state.
  - reflexivity.
  - shape.
  - exact fixture_normalized_shape.
  - intros g st1. apply fixture_output_shape. by right.
  - repeat constructor; discriminate.
  - exists st'. exact Hl.
Defined.

Lemma edge_norm_of_3_4_0_witness :
  ∃ ef row,
    Model.build_edge_features inputs =
      Some ([0; 1; 2; 1; 2; 0]%Z, [1; 2; 0; 0; 1; 2]%Z, ef) ∧
    ef !! 0 = Some row ∧ row !! 3 = Some (of_Z 5).
Proof.
  destruct fixture_edge_features as (ef & Hef).
  destruct (edge_norm_of_3_4_0 inputs world_pos _ _ ef 0 0 1 eq_refl Hef
              eq_refl eq_refl) as (row & Hrow & H5).
  - left. split; reflexivity.
  - exists ef, row. split; [exact Hef|]. split; [exact Hrow|exact H5].
Defined.

Lemma predict_displaces_every_node_witness :
  ∃ g new st',
    Model._build learned_model inputs state = Some (new, st') ∧
    new !! 1 =
      vadd (vec3 3 4 0) <$>
        nz_inverse (_output_normalizer state) (learned_model g) !! 1.
Proof.
  destruct (predict_displaces_every_node learned_model 3 inputs
              world_pos mesh_pos node_type cells state
              fixture_mesh_state fixture_inverse_shape)
    as (g & st1 & new & st' & _ & Hb & Hrow & _).
  destruct (Hrow 1 1%Z eq_refl) as (p & d & Hp & Hd & Hnew).
  injection Hp as <-.
  exists g, new, st'. split; [exact Hb|]. rewrite Hd. exact Hnew.
Defined.

Lemma predict_ignores_target_witness :
  Model._build learned_model inputs state =
  Model._build learned_model training_inputs state.
Proof.
  apply (predict_ignores_target learned_model inputs training_inputs state);
    reflexivity.
Defined.
End FixtureRuns.

(** ** Further properties of the model: failures and reads *)

Section Failures.
Context {F : Type} `{!Scalar F} {S : Type} `{!Normalizer F S} `{!Common}.
Variable learned_model : MultiGraph F → list (list F).

Lemma column0_Some_nonempty (nt : list (list Z)) col :
  column0 nt = Some col → Forall (λ row, row ≠ []) nt.
Proof.
  intros Hc. apply Forall_lookup. intros i row Hrow ->.
  destruct (mapM_lookup _ _ _ _ _ Hc Hrow) as (y & Hy & _). done.
Qed.

Lemma build_node_features_inv inputs nf :
  Model.build_node_features inputs = Some nf →
  ∃ wp nt col,
    inputs !! "world_pos" = Some (FloatTensor wp) ∧
    inputs !! "node_type" = Some (IntTensor nt) ∧
    column0 nt = Some col ∧ length nt = length wp ∧
    nf = zip_with app (zeros_like wp) (one_hot col NodeType_SIZE).
Proof.
  unfold Model.build_node_features. intros Hb.
  destruct (getitem_float inputs "world_pos") as [wp|] eqn:Hwp; [|done].
  simpl in Hb.
  destruct (getitem_int inputs "node_type") as [nt|] eqn:Hnt; [|done].
  simpl in Hb. destruct (column0 nt) as [col|] eqn:Hcol; [|done].
  simpl in Hb. unfold concat2 in Hb. case_decide as Hlen; [|done].
  simpl in Hb. exists wp, nt, col.
  split; [by apply getitem_float_inv|]. split; [by apply getitem_int_inv|].
  split; [done|]. split; [|by simplify_eq].
  unfold zeros_like, one_hot in Hlen. rewrite !length_map in Hlen.
  rewrite <- (column0_length _ _ Hcol). done.
Qed.

(** What a successful graph build has read. *)
Lemma build_graph_reads inputs is_training (st : ModelState S) g st' :
  Model._build_graph inputs is_training st = Some (g, st') →
  ∃ wp mp nt cells,
    inputs !! "world_pos" = Some (FloatTensor wp) ∧
    inputs !! "mesh_pos" = Some (FloatTensor mp) ∧
    inputs !! "node_type" = Some (IntTensor nt) ∧
    inputs !! "cells" = Some (IntTensor cells) ∧
    Forall (λ row, row ≠ []) nt ∧ length nt = length wp.
Proof.
  intros (nf & snd & rcv & ef & Hnf & Hef & _)%build_graph_inv.
  apply build_node_features_inv in Hnf as (wp & nt & col & Hwp & Hnt & Hcol & Hlen & _).
  apply build_edge_features_inv in Hef
    as (cells & wp' & mp & _ & _ & _ & _ & _ & _ & Hcells & _ & _ & Hmp & _).
  exists wp, mp, nt, cells. repeat (split; [done|]).
  split; [by eapply column0_Some_nonempty|done].
Qed.

Lemma build_graph_None_build inputs (st : ModelState S) :
  Model._build_graph inputs false st = None →
  Model._build learned_model inputs st = None.
Proof. intros Hg. rewrite build_unfold, Hg. done. Qed.

Lemma build_graph_None_loss inputs (st : ModelState S) :
  Model._build_graph inputs true st = None →
  Model.loss learned_model inputs st = None.
Proof. intros Hg. rewrite loss_unfold, Hg. done. Qed.

Lemma build_graph_fails inputs (st : ModelState S) :
  (∀ is_training g st',
     Model._build_graph inputs is_training st ≠ Some (g, st')) →
  (∀ is_training, Model._build_graph inputs is_training st = None) ∧
  Model._build learned_model inputs st = None ∧
  Model.loss learned_model inputs st = None.
Proof.
  intros Hno.
  assert (∀ is_training, Model._build_graph inputs is_training st = None) as Hg.
  { intros is_training.
    destruct (Model._build_graph inputs is_training st) as [[g st']|] eqn:Hg;
      [|done].
    by destruct (Hno _ _ _ Hg). }
  split; [done|]. split.
  - by apply build_graph_None_build.
  - by apply build_graph_None_loss.
Qed.

(** X1.  A record that lacks one of the keys [world_pos], [mesh_pos],
    [node_type] or [cells] makes the graph build fail under either
    training flag, and with it prediction and the loss. *)
Theorem missing_key_fails inputs (st : ModelState S) :
  inputs !! "world_pos" = None ∨ inputs !! "mesh_pos" = None ∨
  inputs !! "node_type" = None ∨ inputs !! "cells" = None →
  (∀ is_training, Model._build_graph inputs is_training st = None) ∧
  Model._build learned_model inputs st = None ∧
  Model.loss learned_model inputs st = None.
Proof.
  intros Hmiss. apply build_graph_fails. intros is_training g st' Hg.
  apply build_graph_reads in Hg
    as (wp & mp & nt & cells & Hwp & Hmp & Hnt & Hcells & _).
  destruct Hmiss as [?|[?|[?|?]]]; congruence.
Qed.

(** X2.  The loss fails on a record that holds no float tensor under
    [target|world_pos], be the key missing or the entry an integer
    tensor. *)
Theorem loss_requires_target inputs (st : ModelState S) :
  (∀ t, inputs !! "target|world_pos" ≠ Some (FloatTensor t)) →
  Model.loss learned_model inputs st = None.
Proof.
  intros Hno.
  destruct (Model.loss learned_model inputs st) as [[v st']|] eqn:Hl; [|done].
  apply loss_inv in Hl as (_ & _ & _ & tp & _ & _ & _ & Htp & _).
  by destruct (Hno tp).
Qed.

(** X3.  An entry of the wrong dtype makes the graph build fail, and with
    it prediction and the loss: an integer tensor under [world_pos] or
    [mesh_pos], or a float tensor under [node_type]. *)
Theorem wrong_dtype_fails inputs (st : ModelState S) t u :
  inputs !! "world_pos" = Some (IntTensor t) ∨
  inputs !! "mesh_pos" = Some (IntTensor t) ∨
  inputs !! "node_type" = Some (FloatTensor u) →
  (∀ is_training, Model._build_graph inputs is_training st = None) ∧
  Model._build learned_model inputs st = None ∧
  Model.loss learned_model inputs st = None.
Proof.
  intros Hbad. apply build_graph_fails. intros is_training g st' Hg.
  apply build_graph_reads in Hg
    as (wp & mp & nt & cells & Hwp & Hmp & Hnt & Hcells & _).
  destruct Hbad as [?|[?|?]]; congruence.
Qed.

(** X4.  A [node_type] tensor with a row of no columns, or with a number
    of rows other than that of [world_pos], makes the graph build fail,
    and with it prediction and the loss. *)
Theorem malformed_node_type_fails inputs wp nt (st : ModelState S) :
  inputs !! "world_pos" = Some (FloatTensor wp) →
  inputs !! "node_type" = Some (IntTensor nt) →
  [] ∈ nt ∨ length nt ≠ length wp →
  (∀ is_training, Model._build_graph inputs is_training st = None) ∧
  Model._build learned_model inputs st = None ∧
  Model.loss learned_model inputs st = None.
Proof.
  intros Hwp Hnt Hbad. apply build_graph_fails. intros is_training g st' Hg.
  apply build_graph_reads in Hg
    as (wp' & mp & nt' & cells & Hwp' & _ & Hnt' & _ & Hne & Hlen).
  assert (wp' = wp) as -> by congruence.
  assert (nt' = nt) as -> by congruence.
  destruct Hbad as [Hin|Hlen']; [|done].
  rewrite Forall_forall in Hne. by apply (Hne [] Hin).
Qed.

(** X5.  If the inverse-normalized output of the learned model on the
    graph that prediction builds has a number of rows that is neither that
    of [world_pos] nor 1, prediction fails: the sum of position and
    displacement is rejected as a shape mismatch. *)
Theorem predict_rejects_misshaped_output inputs wp (st : ModelState S) :
  inputs !! "world_pos" = Some (FloatTensor wp) →
  length wp ≠ 1 →
  (∀ g st1, Model._build_graph inputs false st = Some (g, st1) →
     length (nz_inverse (_output_normalizer st) (learned_model g)) ≠ length wp ∧
     length (nz_inverse (_output_normalizer st) (learned_model g)) ≠ 1) →
  Model._build learned_model inputs st = None.
Proof.
  intros Hwp Hn Hshape.
  destruct (Model._build learned_model inputs st) as [[new st']|] eqn:Hb; [|done].
  apply build_inv in Hb as (g & st1 & wp' & Hg & Hwp' & Hadd & _).
  assert (wp' = wp) as -> by congruence.
  destruct (Hshape g st1 Hg) as [Hk Hk1].
  unfold tensor_add, tensor_binop, broadcast in Hadd.
  rewrite decide_False in Hadd by done.
  destruct wp as [|p [|p' wp]]; [|done|];
    destruct (nz_inverse _ _) as [|d [|d' ds]]; simplify_eq/=.
Qed.
End Failures.

(** ** Further properties of the model: state and reads *)

Section Reads.
Context {F : Type} `{!Scalar F} {S : Type} `{!Normalizer F S} `{!Common}.
Variable learned_model : MultiGraph F → list (list F).

(** X6.  A successful evaluation of the loss builds the graph in training
    mode: the node and edge normalizers take the statistics that their
    forward passes with [accumulate = True] return on the unnormalized
    node and edge features of the record. *)
Theorem loss_accumulates_graph_statistics inputs (st : ModelState S) v st' :
  Model.loss learned_model inputs st = Some (v, st') →
  ∃ nf snd rcv ef,
    Model.build_node_features inputs = Some nf ∧
    Model.build_edge_features inputs = Some (snd, rcv, ef) ∧
    _node_normalizer st' = (nz_forward (_node_normalizer st) nf true).2 ∧
    _edge_normalizer st' = (nz_forward (_edge_normalizer st) ef true).2.
Proof.
  intros (g & st1 & wp & tp & td & Hg & _ & _ & _ & ->)%loss_inv.
  apply build_graph_inv in Hg as (nf & snd & rcv & ef & Hnf & Hef & Hg).
  exists nf, snd, rcv, ef. split; [done|]. split; [done|].
  unfold built_graph in Hg. by simplify_eq.
Qed.

Lemma build_value_of_statistics inputs (st1 st2 : ModelState S) :
  statistics st1 = statistics st2 →
  fst <$> Model._build learned_model inputs st1 =
  fst <$> Model._build learned_model inputs st2.
Proof.
  destruct st1 as [o1 n1 e1 c1], st2 as [o2 n2 e2 c2].
  unfold statistics. simpl. intros [= -> -> ->].
  rewrite !build_unfold, !build_graph_unfold.
  destruct (Model.build_node_features inputs) as [nf|]; [|done].
  destruct (Model.build_edge_features inputs) as [[[snd rcv] ef]|]; [|done].
  simpl. destruct (getitem_float inputs "world_pos") as [wp|]; [|done].
  simpl. destruct (tensor_add _ _); done.
Qed.

(** X7.  Prediction is repeatable: the positions that a prediction
    returns depend on the model state through the running statistics
    alone, so predicting the same record again, from the state the first
    prediction left, returns the same positions. *)
Theorem predict_twice_same_positions inputs (st : ModelState S) new st' :
  Model._build learned_model inputs st = Some (new, st') →
  ∃ st'', Model._build learned_model inputs st' = Some (new, st'').
Proof.
  intros Hb. pose proof Hb as Hb'.
  apply build_inv in Hb' as (g & st0 & wp & Hg & _ & _ & ->).
  destruct (build_graph_frozen _ _ _ _ Hg) as [Hst0 _].
  pose proof (build_value_of_statistics inputs
                (log_call (Inverse OutputNormalizer) st0) st) as Heq.
  rewrite Hb in Heq. simpl in Heq.
  destruct (Model._build learned_model inputs
              (log_call (Inverse OutputNormalizer) st0)) as [[new' st'']|];
    simpl in Heq.
  - exists st''. specialize (Heq Hst0). by simplify_eq.
  - by specialize (Heq Hst0).
Qed.

(** X8.  The loss reads five entries of the record and nothing else: two
    records that agree on [world_pos], [mesh_pos], [node_type], [cells]
    and [target|world_pos] have the same loss and leave the same state. *)
Theorem loss_reads_five_keys (inputs1 inputs2 : gmap string (Tensor F))
    (st : ModelState S) :
  inputs1 !! "world_pos" = inputs2 !! "world_pos" →
  inputs1 !! "mesh_pos" = inputs2 !! "mesh_pos" →
  inputs1 !! "node_type" = inputs2 !! "node_type" →
  inputs1 !! "cells" = inputs2 !! "cells" →
  inputs1 !! "target|world_pos" = inputs2 !! "target|world_pos" →
  Model.loss learned_model inputs1 st = Model.loss learned_model inputs2 st.
Proof.
  intros Hwp Hmp Hnt Hcells Htp.
  rewrite !loss_unfold, !build_graph_unfold.
  unfold Model.build_node_features, Model.build_edge_features,
    getitem_float, getitem_int.
  rewrite Hwp, Hmp, Hnt, Hcells, Htp. done.
Qed.

(** X9.  The unnormalized node features carry no position: two records
    with the same [node_type] whose [world_pos] tensors have the same
    shape have the same unnormalized node features. *)
Theorem node_features_ignore_positions
    (inputs1 inputs2 : gmap string (Tensor F)) wp1 wp2 :
  inputs1 !! "world_pos" = Some (FloatTensor wp1) →
  inputs2 !! "world_pos" = Some (FloatTensor wp2) →
  length <$> wp1 = length <$> wp2 →
  inputs1 !! "node_type" = inputs2 !! "node_type" →
  Model.build_node_features inputs1 = Model.build_node_features inputs2.
Proof.
  intros Hwp1 Hwp2 Hshape Hnt.
  unfold Model.build_node_features, getitem_float, getitem_int.
  rewrite Hwp1, Hwp2, Hnt. simpl.
  assert (zeros_like wp1 = zeros_like wp2) as ->; [|done].
  unfold zeros_like. apply list_eq. intros i.
  rewrite !list_lookup_fmap.
  assert (length <$> wp1 !! i = length <$> wp2 !! i) as Hi.
  { by rewrite <- !list_lookup_fmap, Hshape. }
  destruct (wp1 !! i) as [p|], (wp2 !! i) as [q|]; simplify_eq/=; [|done].
  f_equal. apply list_eq. intros j. rewrite !list_lookup_fmap.
  destruct (p !! j) eqn:Hp, (q !! j) eqn:Hq; try done.
  - apply lookup_lt_Some in Hp. apply lookup_ge_None in Hq. lia.
  - apply lookup_ge_None in Hp. apply lookup_lt_Some in Hq. lia.
Qed.

(** X10.  Of [node_type] only the first column is read: replacing the
    tensor by one with the same first column changes neither prediction
    nor the loss. *)
Theorem only_first_node_type_column_is_read
    (inputs : gmap string (Tensor F)) nt nt' (st : ModelState S) :
  inputs !! "node_type" = Some (IntTensor nt) →
  column0 nt' = column0 nt →
  Model._build learned_model (<["node_type" := IntTensor nt']> inputs) st =
    Model._build learned_model inputs st ∧
  Model.loss learned_model (<["node_type" := IntTensor nt']> inputs) st =
    Model.loss learned_model inputs st.
Proof.
  intros Hnt Hcol.
  rewrite !build_unfold, !loss_unfold, !build_graph_unfold.
  unfold Model.build_node_features, Model.build_edge_features,
    getitem_float, getitem_int.
  rewrite lookup_insert_eq, Hnt, !lookup_insert_ne by done. simpl.
  rewrite Hcol. done.
Qed.

(** X11.  Training shapes later predictions through the output
    normalizer: a prediction made from the state that an evaluation of the
    loss left takes its displacement from the inverse transform at the
    statistics which that evaluation accumulated on its target
    displacement. *)
Theorem predict_after_loss_uses_accumulated_statistics
    training_inputs inputs (st : ModelState S) v st1 new st2 :
  Model.loss learned_model training_inputs st = Some (v, st1) →
  Model._build learned_model inputs st1 = Some (new, st2) →
  ∃ cur target td g s1 wp,
    training_inputs !! "world_pos" = Some (FloatTensor cur) ∧
    training_inputs !! "target|world_pos" = Some (FloatTensor target) ∧
    tensor_sub target cur = Some td ∧
    Model._build_graph inputs false st1 = Some (g, s1) ∧
    inputs !! "world_pos" = Some (FloatTensor wp) ∧
    tensor_add wp
      (nz_inverse (nz_forward (_output_normalizer st) td true).2
                  (learned_model g)) = Some new ∧
    calls st2 = calls st ++ loss_calls ++ predict_calls.
Proof.
  intros Hl Hb.
  apply loss_inv in Hl as (g0 & s0 & cur & target & td & Hg0 & Hcur & Htg & Htd & ->).
  apply build_inv in Hb as (g & s1 & wp & Hg & Hwp & Hadd & ->).
  destruct (build_graph_output_normalizer _ _ _ _ _ Hg0) as [_ Hc0].
  destruct (build_graph_output_normalizer _ _ _ _ _ Hg) as [_ Hc1].
  exists cur, target, td, g, s1, wp. repeat (split; [done|]).
  simpl. rewrite Hc1. simpl. rewrite Hc0, <- !app_assoc. done.
Qed.
End Reads.

(** ** The further properties on the single-triangle mesh *)

Section FixtureExtras.
Import binary32 Fixture.

Lemma missing_key_fails_witness :
  Model._build learned_model (delete "mesh_pos" inputs) state = None ∧
  Model.loss learned_model (delete "cells" training_inputs) state = None.
Proof.
  split.
  - apply (missing_key_fails learned_model (delete "mesh_pos" inputs) state).
    right. left. reflexivity.
  - apply (missing_key_fails learned_model (delete "cells" training_inputs) state).
    right. right. right. reflexivity.
Defined.

Lemma loss_requires_target_witness :
  Model.loss learned_model inputs state = None.
Proof.
  apply (loss_requires_target learned_model inputs state).
  intros t Ht. vm_compute in Ht. discriminate.
Defined.

Lemma wrong_dtype_fails_witness :
  Model._build learned_model
    (<["node_type" := FloatTensor world_pos]> inputs) state = None.
Proof.
  apply (wrong_dtype_fails learned_model
           (<["node_type" := FloatTensor world_pos]> inputs) state [] world_pos).
  right. right. reflexivity.
Defined.

Lemma malformed_node_type_fails_witness :
  Model._build learned_model
    (<["node_type" := IntTensor [[0]; []; [0]]%Z]> inputs) state = None ∧
  Model._build learned_model
    (<["node_type" := IntTensor [[0]; [1]]%Z]> inputs) state = None.
Proof.
  split.
  - apply (malformed_node_type_fails learned_model
             (<["node_type" := IntTensor [[0]; []; [0]]%Z]> inputs)
             world_pos [[0]; []; [0]]%Z state); [reflexivity|reflexivity|].
    left. apply list_elem_of_lookup. exists 1. reflexivity.
  - apply (malformed_node_type_fails learned_model
             (<["node_type" := IntTensor [[0]; [1]]%Z]> inputs)
             world_pos [[0]; [1]]%Z state); [reflexivity|reflexivity|].
    right. simpl. lia.
Defined.

Lemma predict_rejects_misshaped_output_witness :
  Model._build (λ g, vec3 0 0 0 :: learned_model g) inputs state = None.
Proof.
  apply (predict_rejects_misshaped_output (λ g, vec3 0 0 0 :: learned_model g)
           inputs world_pos state); [reflexivity|simpl; lia|].
  intros g st1 Hg. vm_compute in Hg. injection Hg as <- <-.
  split; simpl; lia.
Defined.

Lemma loss_accumulates_graph_statistics_witness :
  ∃ v st' nf snd rcv ef,
    Model.loss learned_model training_inputs state = Some (v, st') ∧
    Model.build_node_features training_inputs = Some nf ∧
    Model.build_edge_features training_inputs = Some (snd, rcv, ef) ∧
    _node_normalizer st' = (nz_forward (_node_normalizer state) nf true).2 ∧
    _edge_normalizer st' = (nz_forward (_edge_normalizer state) ef true).2.
Proof.
  destruct (Model.loss learned_model training_inputs state) as [[v st']|] eqn:Hl;
    [|vm_compute in Hl; discriminate].
  destruct (loss_accumulates_graph_statistics learned_model training_inputs
              state v st' Hl) as (nf & snd & rcv & ef & Hnf & Hef & Hn & He).
  exists v, st', nf, snd, rcv, ef. split; [reflexivity|].
  split; [exact Hnf|]. split; [exact Hef|]. split; [exact Hn|exact He].
Defined.

Lemma predict_twice_same_positions_witness :
  ∃ new st' st'',
    Model._build learned_model inputs state = Some (new, st') ∧
    Model._build learned_model inputs st' = Some (new, st'').
Proof.
  destruct (Model._build learned_model inputs state) as [[new st']|] eqn:Hb;
    [|vm_compute in Hb; discriminate].
  destruct (predict_twice_same_positions learned_model inputs state new st' Hb)
    as (st'' & Hb').
  exists new, st', st''. split; [reflexivity|exact Hb'].
Defined.

Lemma loss_reads_five_keys_witness :
  Model.loss learned_model
    (<["velocity" := FloatTensor mesh_pos]> training_inputs) state =
  Model.loss learned_model training_inputs state.
Proof.
  apply (loss_reads_five_keys learned_model
           (<["velocity" := FloatTensor mesh_pos]> training_inputs)
           training_inputs state); reflexivity.
Defined.

Lemma node_features_ignore_positions_witness :
  Model.build_node_features inputs =
  Model.build_node_features
    (<["world_pos" := FloatTensor target_world_pos]> inputs).
Proof.
  apply (node_features_ignore_positions inputs
           (<["world_pos" := FloatTensor target_world_pos]> inputs)
           world_pos target_world_pos); reflexivity.
Defined.

Lemma only_first_node_type_column_is_read_witness :
  Model.loss learned_model
    (<["node_type" := IntTensor [[0; 7]; [1; 8]; [0; 9]]%Z]> training_inputs)
    state =
  Model.loss learned_model training_inputs state.
Proof.
  apply (only_first_node_type_column_is_read learned_model training_inputs
           node_type [[0; 7]; [1; 8]; [0; 9]]%Z state); reflexivity.
Defined.

Lemma predict_after_loss_uses_accumulated_statistics_witness :
  ∃ v st1 new st2 td g,
    Model.loss learned_model training_inputs state = Some (v, st1) ∧
    Model._build learned_model inputs st1 = Some (new, st2) ∧
    tensor_sub target_world_pos world_pos = Some td ∧
    tensor_add world_pos
      (nz_inverse (nz_forward (_output_normalizer state) td true).2
                  (learned_model g)) = Some new.
Proof.
  destruct (Model.loss learned_model training_inputs state) as [[v st1]|] eqn:Hl;
    [|vm_compute in Hl; discriminate].
  destruct (Model._build learned_model inputs st1) as [[new st2]|] eqn:Hb.
  - destruct (predict_after_loss_uses_accumulated_statistics learned_model
                training_inputs inputs state v st1 new st2 Hl Hb)
      as (cur & target & td & g & s1 & wp & Hcur & Htg & Htd & _ & Hwp & Hadd & _).
    vm_compute in Hcur, Htg, Hwp.
    injection Hcur as <-. injection Htg as <-. injection Hwp as <-.
    exists v, st1, new, st2, td, g.
    split; [reflexivity|]. split; [exact Hb|]. split; [exact Htd|exact Hadd].
  - vm_compute in Hl. injection Hl as <- <-. vm_compute in Hb. discriminate.
Defined.
End FixtureExtras.
